(** * kagimcp: the search formatter, the search fan-out and the summarizer

    A shallow embedding of [src/kagimcp/server.py].

    Python values that reach the code are the values [response.json()]
    produces: [None], booleans, integers, strings, lists and dictionaries
    with string keys.  Fractional JSON numbers are left out of the
    embedding.  A string is a sequence of characters with code points
    below 256.  Raising is modelled by the [py] type, the two remote
    gateway calls by functions the tools receive, and the requests handed
    to the gateway by a log threaded through the [tool] monad.

    The formatter and the call handler of the earlier server,
    [src/server.py], are embedded in the module [Legacy]. *)

From Stdlib Require Import List String Ascii ZArith Lia Bool Permutation.
From Stdlib Require Import DecimalString.
Import ListNotations.
Open Scope string_scope.
Open Scope Z_scope.

Set Warnings "-register-all".

(** ** Python values *)

Inductive value : Type :=
| VNone
| VBool (b : bool)
| VInt (z : Z)
| VStr (s : string)
| VList (items : list value)
| VDict (entries : list (string * value)).

(** The exceptions the modelled code can raise.  [Fault] stands for an
    exception [e] raised inside the gateway client, with [text] its
    [str(e)]. *)
Inductive exn : Type :=
| ValueError (arg : value)
| KeyError (key : string)
| TypeError
| AttributeError
| Fault (text : string).

Inductive py (A : Type) : Type :=
| Ok (a : A)
| Raise (e : exn).
Arguments Ok {A} a.
Arguments Raise {A} e.

Definition rbind {A B} (r : py A) (k : A -> py B) : py B :=
  match r with
  | Ok a => k a
  | Raise e => Raise e
  end.

Declare Scope py_scope.
Delimit Scope py_scope with py.
Notation "x <- r ;; k" := (rbind r (fun x => k))
  (at level 61, r at next level, right associativity) : py_scope.

(** A list comprehension whose element expression may raise. *)
Fixpoint mapM {A B} (f : A -> py B) (l : list A) : py (list B) :=
  match l with
  | [] => Ok []
  | a :: l' =>
      (b <- f a ;; bs <- mapM f l' ;; Ok (b :: bs))%py
  end.

(** A list comprehension with an [if] clause that may raise. *)
Fixpoint filterM {A} (p : A -> py bool) (l : list A) : py (list A) :=
  match l with
  | [] => Ok []
  | a :: l' =>
      (keep <- p a ;; rest <- filterM p l' ;;
       Ok (if keep then a :: rest else rest))%py
  end.

(** ** Strings *)

(** [sep.join(parts)] *)
Fixpoint join (sep : string) (parts : list string) : string :=
  match parts with
  | [] => EmptyString
  | [p] => p
  | p :: rest => p ++ sep ++ join sep rest
  end.

Definition str_of_int (z : Z) : string :=
  NilZero.string_of_int (Z.to_int z).

Definition hex_digit (n : N) : ascii :=
  match n with
  | 0%N => "0" | 1%N => "1" | 2%N => "2" | 3%N => "3"
  | 4%N => "4" | 5%N => "5" | 6%N => "6" | 7%N => "7"
  | 8%N => "8" | 9%N => "9" | 10%N => "a" | 11%N => "b"
  | 12%N => "c" | 13%N => "d" | 14%N => "e" | _ => "f"
  end%char.

Definition backslash : ascii := ascii_of_N 92.
Definition squote : ascii := ascii_of_N 39.
Definition dquote : ascii := ascii_of_N 34.

(** [str.isprintable] on one character below U+0100: the ASCII graphic
    characters and space, and U+00A1..U+00FF except the soft hyphen. *)
Definition printable (c : ascii) : bool :=
  let n := N_of_ascii c in
  ((32 <=? n) && (n <? 127) || (161 <=? n) && negb (n =? 173))%N.

Fixpoint contains_char (c : ascii) (s : string) : bool :=
  match s with
  | EmptyString => false
  | String d s' => Ascii.eqb c d || contains_char c s'
  end.

Definition escape_char (quote c : ascii) : string :=
  let n := N_of_ascii c in
  if Ascii.eqb c quote || Ascii.eqb c backslash then
    String backslash (String c EmptyString)
  else if (n =? 9)%N then String backslash "t"
  else if (n =? 10)%N then String backslash "n"
  else if (n =? 13)%N then String backslash "r"
  else if printable c then String c EmptyString
  else String backslash
         (String "x" (String (hex_digit (n / 16)) (String (hex_digit (n mod 16)) EmptyString))).

Fixpoint escape (quote : ascii) (s : string) : string :=
  match s with
  | EmptyString => EmptyString
  | String c s' => escape_char quote c ++ escape quote s'
  end.

(** [repr(s)] for a string: single quotes, unless the string has a single
    quote and no double quote. *)
Definition repr_str (s : string) : string :=
  let quote :=
    if contains_char squote s && negb (contains_char dquote s)
    then dquote else squote in
  String quote (escape quote s ++ String quote EmptyString).

(** [repr(v)] *)
Fixpoint py_repr (v : value) : string :=
  match v with
  | VNone => "None"
  | VBool true => "True"
  | VBool false => "False"
  | VInt z => str_of_int z
  | VStr s => repr_str s
  | VList items => "[" ++ join ", " (map py_repr items) ++ "]"
  | VDict entries =>
      "{" ++ join ", "
        (map (fun kv => repr_str (fst kv) ++ ": " ++ py_repr (snd kv)) entries)
      ++ "}"
  end.

(** [str(v)], which is also what a replacement field [{name}] with no
    format specification renders. *)
Definition py_str (v : value) : string :=
  match v with
  | VStr s => s
  | _ => py_repr v
  end.

(** Truth value testing, as in [if v:]. *)
Definition truthy (v : value) : bool :=
  match v with
  | VNone => false
  | VBool b => b
  | VInt z => negb (z =? 0)
  | VStr s => negb (String.eqb s EmptyString)
  | VList items => match items with [] => false | _ => true end
  | VDict entries => match entries with [] => false | _ => true end
  end.

(** [v == 0]: [False] is equal to [0] as well. *)
Definition eq_zero (v : value) : bool :=
  match v with
  | VInt z => z =? 0
  | VBool b => negb b
  | _ => false
  end.

(** ** Dictionaries *)

(** The entries of a dictionary are kept in insertion order, each key
    once; a lookup takes the first entry with the key. *)

Fixpoint lookup (k : string) (entries : list (string * value)) : option value :=
  match entries with
  | [] => None
  | (k', v) :: rest => if String.eqb k k' then Some v else lookup k rest
  end.

(** [v[k]] for a string [k]: only a dictionary can be indexed by a string. *)
Definition subscript (v : value) (k : string) : py value :=
  match v with
  | VDict entries =>
      match lookup k entries with
      | Some x => Ok x
      | None => Raise (KeyError k)
      end
  | _ => Raise TypeError
  end.

(** [v.get(k, default)]: of the modelled values, only a dictionary has a
    [get] attribute. *)
Definition get (v : value) (k : string) (default : value) : py value :=
  match v with
  | VDict entries =>
      match lookup k entries with
      | Some x => Ok x
      | None => Ok default
      end
  | _ => Raise AttributeError
  end.

Fixpoint chars (s : string) : list value :=
  match s with
  | EmptyString => []
  | String c s' => VStr (String c EmptyString) :: chars s'
  end.

(** [for x in v]: a list yields its items, a string its characters and a
    dictionary its keys; nothing else is iterable. *)
Definition iterate (v : value) : py (list value) :=
  match v with
  | VList items => Ok items
  | VStr s => Ok (chars s)
  | VDict entries => Ok (map (fun kv => VStr (fst kv)) entries)
  | _ => Raise TypeError
  end.

(** [enumerate(l, start)] *)
Fixpoint enumerate {A} (l : list A) (start : Z) : list (Z * A) :=
  match l with
  | [] => []
  | a :: l' => (start, a) :: enumerate l' (start + 1)
  end.


(** ** The result formatter *)

Definition nl : string := String (ascii_of_N 10) EmptyString.

Definition not_available_str : value := VStr "Not Available".

(** [result_template.format(...)]: the dedented and stripped template is
    [{result_number}: {title}], [{url}], [Published Date: {published}] and
    [{snippet}], one per line. *)
Definition result_template
    (result_number title url published snippet : value) : string :=
  py_str result_number ++ ": " ++ py_str title ++ nl
  ++ py_str url ++ nl
  ++ "Published Date: " ++ py_str published ++ nl
  ++ py_str snippet.

(** [query_response_template.format(...)]: a rule, the quoted query, a rule
    and the formatted results, one per line. *)
Definition query_response_template
    (query formatted_search_results : string) : string :=
  "-----" ++ nl
  ++ "Results for search query " ++ String dquote query
  ++ String dquote ":" ++ nl
  ++ "-----" ++ nl
  ++ formatted_search_results.

(** The condition of the first comprehension: [result["t"] == 0]. *)
Definition is_search_result (result : value) : py bool :=
  (t <- subscript result "t" ;; Ok (eq_zero t))%py.

(** The element expression of the second comprehension. *)
Definition format_result (numbered : Z * value) : py string :=
  let '(result_number, result) := numbered in
  (title <- get result "title" not_available_str ;;
   url <- get result "url" not_available_str ;;
   published <- get result "published" not_available_str ;;
   snippet <- get result "snippet" not_available_str ;;
   Ok (result_template (VInt result_number) title url published snippet))%py.

(** The body of the [for] loop, on the remaining [(query, response)] pairs,
    with the loop's two variables as accumulators. *)
Fixpoint format_loop (pairs : list (string * value)) (start_index : Z)
    (per_query_response_strs : list string) : py (list string) :=
  match pairs with
  | [] => Ok per_query_response_strs
  | (query, response) :: rest =>
      (error <- get response "error" VNone ;;
       if truthy error then
         format_loop rest start_index
           (per_query_response_strs
            ++ [query_response_template query ("ERROR: " ++ py_str error)])
       else
         data <- subscript response "data" ;;
         items <- iterate data ;;
         results <- filterM is_search_result items ;;
         formatted_results_list <-
           mapM format_result (enumerate results start_index) ;;
         let start_index := start_index + Z.of_nat (List.length results) in
         let formatted_results_str := join (nl ++ nl) formatted_results_list in
         let query_response_str :=
           query_response_template query formatted_results_str in
         format_loop rest start_index
           (per_query_response_strs ++ [query_response_str]))%py
  end.

Definition format_search_results
    (queries : list string) (responses : list value) : py string :=
  (per_query_response_strs <- format_loop (combine queries responses) 1 [] ;;
   Ok (join (nl ++ nl) per_query_response_strs))%py.


(** ** The tools and the remote gateway *)

(** [Literal["summary", "takeaway"]] *)
Inductive summary_kind : Type := Summary | Takeaway.

(** What is handed to the gateway client: one entry per task submitted to
    the executor, one per [kagi_client.summarize] call. *)
Inductive request : Type :=
| SearchRequest (query : string)
| SummarizeRequest (url engine : string) (summary_type : summary_kind)
    (target_language : option string).

(** What becomes of the task the executor runs for one query:
    [kagi_client.search] returned, it raised [e] with [str(e) = text], or
    the task was not done when [Executor.map]'s deadline passed. *)
Inductive task_outcome : Type :=
| Returned (response : value)
| Failed (text : string)
| Pending.

(** What the [try] block of [kagi_search_fetch] can raise. *)
Inductive pool_error : Type :=
| ClientError (text : string)
| DeadlineExceeded.

(** [str(e)] in the [except] clause; [TimeoutError()] has no message. *)
Definition str_pool_error (e : pool_error) : string :=
  match e with
  | ClientError text => text
  | DeadlineExceeded => EmptyString
  end.

(** A tool body: it may raise, and it extends the log of requests. *)
Definition tool (A : Type) : Type := list request -> py A * list request.

Definition ret {A} (a : A) : tool A := fun log => (Ok a, log).
Definition raise {A} (e : exn) : tool A := fun log => (Raise e, log).
Definition lift {A} (r : py A) : tool A := fun log => (r, log).
Definition bind {A B} (m : tool A) (k : A -> tool B) : tool B :=
  fun log =>
    match m log with
    | (Ok a, log') => k a log'
    | (Raise e, log') => (Raise e, log')
    end.

Declare Scope tool_scope.
Delimit Scope tool_scope with tool.
Notation "x <- m ;; k" := (bind m (fun x => k))
  (at level 61, m at next level, right associativity) : tool_scope.

Definition search_error_prefix : string :=
  "Error calling Kagi Search API (Currently in beta, make sure you have been granted access. Can be granted by emailing support@kagi.com): ".

Definition valid_engines : list string := ["cecil"; "agnes"; "daphne"; "muriel"].

(** [e in s] for strings. *)
Definition mem (e : string) (s : list string) : bool :=
  existsb (String.eqb e) s.

(** [str(s)] for a non-empty set of strings iterated in the order [order]. *)
Definition str_set (order : list string) : string :=
  "{" ++ join ", " (map repr_str order) ++ "}".

Section Tools.

(** The outcome of the task for the query at position [i] of the batch. *)
Variable search_task : nat -> string -> task_outcome.

(** [kagi_client.summarize(url, engine=..., summary_type=..., target_language=...)] *)
Variable summarize : string -> string -> summary_kind -> option string -> py value.

(** [os.environ] *)
Variable environ : string -> option string.

(** The order in which the interpreter iterates over [valid_engines],
    which depends on the process's string hashing. *)
Variable engines_order : list string.

(** Collecting the results of [executor.map] in the order of the
    queries, from position [i] on: the first task that failed or is
    still pending raises. *)
Fixpoint collect (i : nat) (queries : list string)
    : pool_error + list value :=
  match queries with
  | [] => inr []
  | query :: rest =>
      match search_task i query with
      | Returned response =>
          match collect (S i) rest with
          | inl e => inl e
          | inr responses => inr (response :: responses)
          end
      | Failed text => inl (ClientError text)
      | Pending => inl DeadlineExceeded
      end
  end.

(** [list(executor.map(kagi_client.search, queries, timeout=10))]:
    [map] submits one task per query before any result is collected. *)
Definition executor_map (queries : list string)
    : tool (pool_error + list value) :=
  fun log => (Ok (collect 0 queries), (log ++ map SearchRequest queries)%list).

Definition kagi_search_fetch (queries : list string) : tool string :=
  match queries with
  | [] => raise (ValueError (VStr "Search called with no queries."))
  | _ =>
      (outcome <- executor_map queries ;;
       match outcome with
       | inl e =>
           raise (ValueError (VStr (search_error_prefix ++ str_pool_error e)))
       | inr results => lift (format_search_results queries results)
       end)%tool
  end.

Definition environ_get (name default : string) : string :=
  match environ name with
  | Some v => v
  | None => default
  end.

Definition call_summarize (url engine : string) (summary_type : summary_kind)
    (target_language : option string) : tool value :=
  fun log =>
    (summarize url engine summary_type target_language,
     (log ++ [SummarizeRequest url engine summary_type target_language])%list).

Definition kagi_summarizer (url : string) (summary_type : summary_kind)
    (target_language : option string) : tool value :=
  if String.eqb url EmptyString then
    raise (ValueError (VStr "Summarizer called with no URL."))
  else
    let engine := environ_get "KAGI_SUMMARIZER_ENGINE" "cecil" in
    if negb (mem engine valid_engines) then
      raise (ValueError (VStr
        ("Summarizer configured incorrectly, invalid summarization engine set: "
         ++ engine ++ ". Must be one of the following: "
         ++ str_set engines_order)))
    else
      (response <- call_summarize url engine summary_type target_language ;;
       data <- lift (subscript response "data") ;;
       summary <- lift (subscript data "output") ;;
       error <- lift (get response "error" VNone) ;;
       if truthy error then raise (ValueError error) else ret summary)%tool.

End Tools.

(** ** The loop body and the vocabulary of the statements *)

(** One iteration of the [for] loop: the block appended for the query and
    the value of [start_index] after it. *)
Definition format_query (start_index : Z) (query : string) (response : value)
    : py (string * Z) :=
  (error <- get response "error" VNone ;;
   if truthy error then
     Ok (query_response_template query ("ERROR: " ++ py_str error), start_index)
   else
     data <- subscript response "data" ;;
     items <- iterate data ;;
     results <- filterM is_search_result items ;;
     formatted_results_list <-
       mapM format_result (enumerate results start_index) ;;
     Ok (query_response_template query (join (nl ++ nl) formatted_results_list),
         start_index + Z.of_nat (List.length results)))%py.

Definition is_ok {A} (r : py A) : bool :=
  match r with
  | Ok _ => true
  | Raise _ => false
  end.

(** The error a response signals: the value of its [error] entry when that
    value is true in a condition. *)
Definition error_of (response : value) : option value :=
  match get response "error" VNone with
  | Ok error => if truthy error then Some error else None
  | Raise _ => None
  end.

(** The items of a response's [data]. *)
Definition data_items (response : value) : list value :=
  match subscript response "data" with
  | Ok data =>
      match iterate data with
      | Ok items => items
      | Raise _ => []
      end
  | Raise _ => []
  end.

(** An organic result: an item whose [t] is equal to 0. *)
Definition organic (item : value) : bool :=
  match subscript item "t" with
  | Ok t => eq_zero t
  | Raise _ => false
  end.

Definition organic_items (response : value) : list value :=
  filter organic (data_items response).

(** What a response adds to the count of numbered entries. *)
Definition organic_count (response : value) : nat :=
  match error_of response with
  | Some _ => 0%nat
  | None => List.length (organic_items response)
  end.

Definition total_organic (responses : list value) : nat :=
  list_sum (map organic_count responses).

(** A field of a result as the listing shows it. *)
Definition shown (item : value) (field : string) : string :=
  match item with
  | VDict entries =>
      match lookup field entries with
      | Some v => py_str v
      | None => "Not Available"
      end
  | _ => "Not Available"
  end.

Definition render_entry (entry : Z * value) : string :=
  str_of_int (fst entry) ++ ": " ++ shown (snd entry) "title" ++ nl
  ++ shown (snd entry) "url" ++ nl
  ++ "Published Date: " ++ shown (snd entry) "published" ++ nl
  ++ shown (snd entry) "snippet".

(** The block of one query: an error line, or numbered entries. *)
Inductive block : Type :=
| ErrorBlock (query : string) (error : value)
| ResultsBlock (query : string) (entries : list (Z * value)).

Definition header (query : string) : string :=
  "-----" ++ nl
  ++ "Results for search query " ++ String dquote query
  ++ String dquote ":" ++ nl
  ++ "-----" ++ nl.

Definition render_block (b : block) : string :=
  match b with
  | ErrorBlock query error => header query ++ "ERROR: " ++ py_str error
  | ResultsBlock query entries =>
      header query ++ join (nl ++ nl) (map render_entry entries)
  end.

Definition numbers (b : block) : list Z :=
  match b with
  | ErrorBlock _ _ => []
  | ResultsBlock _ entries => map fst entries
  end.

(** [answers (query, response) b]: [b] is the block of [query], an error
    block with the error the response signals, or else a block whose
    entries are the organic items of the response in their order. *)
Definition answers (pair : string * value) (b : block) : Prop :=
  match error_of (snd pair) with
  | Some error => b = ErrorBlock (fst pair) error
  | None =>
      exists entries,
        b = ResultsBlock (fst pair) entries
        /\ map snd entries = organic_items (snd pair)
  end.

(** The blocks of a batch whose numbering starts at [start_index]. *)
Fixpoint layout (pairs : list (string * value)) (start_index : Z) : list block :=
  match pairs with
  | [] => []
  | (query, response) :: rest =>
      match error_of response with
      | Some error => ErrorBlock query error :: layout rest start_index
      | None =>
          ResultsBlock query (enumerate (organic_items response) start_index)
          :: layout rest
               (start_index + Z.of_nat (List.length (organic_items response)))
      end
  end.

(** A response the loop body goes through without raising. *)
Definition well_formed (response : value) : bool :=
  match get response "error" VNone with
  | Ok error =>
      truthy error
      || match subscript response "data" with
         | Ok data =>
             match iterate data with
             | Ok items => forallb (fun item => is_ok (subscript item "t")) items
             | Raise _ => false
             end
         | Raise _ => false
         end
  | Raise _ => false
  end.

(** What a failed or pending task raises in the [try] block. *)
Definition task_fault (outcome : task_outcome) : option pool_error :=
  match outcome with
  | Returned _ => None
  | Failed text => Some (ClientError text)
  | Pending => Some DeadlineExceeded
  end.

(** ** Sample inputs *)

Module Sample.

Definition hit (title : string) : value :=
  VDict [("t", VInt 0); ("title", VStr title); ("url", VStr "https://example.org")].

Definition bare_hit : value := VDict [("t", VInt 0)].

Definition related : value :=
  VDict [("t", VInt 1); ("list", VList [VStr "more"])].

Definition three_hits : value :=
  VDict [("data", VList [hit "a"; related; hit "b"; hit "c"])].

Definition two_hits : value :=
  VDict [("data", VList [hit "d"; hit "e"; related])].

Definition two_hits_only : value :=
  VDict [("data", VList [hit "d"; hit "e"])].

Definition upstream_error : value :=
  VList [VDict [("code", VInt 1); ("msg", VStr "Unauthorized")]].

Definition failed : value :=
  VDict [("data", VList [hit "x"]); ("error", upstream_error)].

Definition null_error : value :=
  VDict [("error", VNone); ("data", VList [bare_hit])].

Definition summary_with_error : value :=
  VDict [("data", VDict [("output", VStr "A summary.")]);
         ("error", upstream_error)].

Definition summary_null_error : value :=
  VDict [("data", VDict [("output", VStr "A summary.")]); ("error", VNone)].

Definition error_only : value := VDict [("error", upstream_error)].

Definition error_no_output : value :=
  VDict [("data", VDict []); ("error", upstream_error)].

Definition no_environ : string -> option string := fun _ => None.

Definition bogus_environ : string -> option string :=
  fun name =>
    if String.eqb name "KAGI_SUMMARIZER_ENGINE" then Some "bogus" else None.

Definition answer (response : value)
    : string -> string -> summary_kind -> option string -> py value :=
  fun _ _ _ _ => Ok response.

Definition second_fails : nat -> string -> task_outcome :=
  fun i _ =>
    if Nat.eqb i 1 then Failed "502 Bad Gateway" else Returned two_hits.

Definition second_pending : nat -> string -> task_outcome :=
  fun i _ => if Nat.eqb i 1 then Pending else Returned two_hits.

End Sample.

(** ** The earlier server, [src/server.py] *)

Module Legacy.

(** [s.replace(old, new)] for an [old] that is not empty: the occurrences
    of [old] are taken from the left and do not overlap.  [skip] counts
    the characters of an occurrence that are still to be passed over. *)
Fixpoint replace_from (old new : string) (skip : nat) (s : string) : string :=
  match s with
  | EmptyString => EmptyString
  | String c s' =>
      match skip with
      | S k => replace_from old new k s'
      | O =>
          if String.prefix old s then
            new ++ replace_from old new (String.length old - 1) s'
          else String c (replace_from old new 0 s')
      end
  end.

Definition replace (old new s : string) : string := replace_from old new 0 s.

(** [v.replace(old, new)]: of the modelled values only a string has the
    method. *)
Definition method_replace (v : value) (old new : string) : py string :=
  match v with
  | VStr s => Ok (replace old new s)
  | _ => Raise AttributeError
  end.

(** The f-string of the loop body: the title in brackets, the URL in
    parentheses, and on the next line, after four spaces, the snippet
    without its bold tags; a last line of four spaces. *)
Definition result_str (result : value) : py string :=
  (title <- subscript result "title" ;;
   url <- subscript result "url" ;;
   snippet <- subscript result "snippet" ;;
   without_open <- method_replace snippet "<b>" EmptyString ;;
   without_tags <- method_replace (VStr without_open) "</b>" EmptyString ;;
   Ok ("[" ++ py_str title ++ "](" ++ py_str url ++ ")" ++ nl
       ++ "    " ++ without_tags ++ nl ++ "    "))%py.

(** The [for] loop over [results["data"]], with [output] as accumulator. *)
Fixpoint format_items (items : list value) (output : list string)
    : py (list string) :=
  match items with
  | [] => Ok output
  | result :: rest =>
      (t <- subscript result "t" ;;
       if eq_zero t then
         entry <- result_str result ;;
         format_items rest (output ++ [entry])
       else format_items rest output)%py
  end.

Definition format_search_results (results : value) : py string :=
  (data <- subscript results "data" ;;
   items <- iterate data ;;
   output <- format_items items [] ;;
   Ok (join (nl ++ "---" ++ nl) output))%py.

(** [types.TextContent(type="text", text=...)] *)
Inductive text_content : Type :=
| TextContent (text : string).

Section CallTool.

(** [kagi_client.search(query, limit=10)] *)
Variable search : value -> py value.

(** The message the interpreter gives the [TypeError] or the
    [AttributeError] of a call, if it raises one. *)
Variable type_error_text attribute_error_text : string.

(** [str(e)] in the [except] clause. *)
Definition str_exn (e : exn) : string :=
  match e with
  | ValueError arg => py_str arg
  | KeyError key => repr_str key
  | TypeError => type_error_text
  | AttributeError => attribute_error_text
  | Fault text => text
  end.

(** [arguments.get("query") if arguments else None] *)
Definition query_of (arguments : option (list (string * value))) : value :=
  match arguments with
  | Some entries =>
      if truthy (VDict entries) then
        match lookup "query" entries with
        | Some query => query
        | None => VNone
        end
      else VNone
  | None => VNone
  end.

(** The [try] block; the second component is the list of the queries
    handed to the gateway.  The calls of [logger.info] are left out. *)
Definition call_tool_body (name : string)
    (arguments : option (list (string * value))) (sent : list value)
    : py string * list value :=
  if String.eqb name "Search" then
    let query := query_of arguments in
    if negb (truthy query) then
      (Raise (ValueError (VStr "Search called with no query")), sent)
    else
      ((results <- search query ;; format_search_results results)%py,
       (sent ++ [query])%list)
  else (Raise (ValueError (VStr ("Unknown tool: " ++ name))), sent).

Definition handle_call_tool (name : string)
    (arguments : option (list (string * value))) (sent : list value)
    : list text_content * list value :=
  match call_tool_body name arguments sent with
  | (Ok text, sent') => ([TextContent text], sent')
  | (Raise e, sent') => ([TextContent ("Error: " ++ str_exn e)], sent')
  end.

End CallTool.

(** An item the loop renders without raising: a dictionary with a [t],
    and when the [t] is equal to 0 also a [title], a [url] and a [snippet]
    that is a string. *)
Definition renderable (item : value) : bool :=
  match subscript item "t" with
  | Ok t =>
      negb (eq_zero t)
      || (is_ok (subscript item "title")
          && is_ok (subscript item "url")
          && match subscript item "snippet" with
             | Ok (VStr _) => true
             | _ => false
             end)
  | Raise _ => false
  end.

(** The entry of a renderable organic item. *)
Definition entry_of (item : value) : string :=
  match result_str item with
  | Ok entry => entry
  | Raise _ => EmptyString
  end.

Definition plain_hit : value :=
  VDict [("t", VInt 0); ("title", VStr "Rocq"); ("url", VStr "https://rocq-prover.org");
         ("snippet", VStr "The <b>Rocq</b> prover")].

Definition untitled_hit : value :=
  VDict [("t", VInt 0); ("url", VStr "https://example.org"); ("snippet", VStr "text")].

Definition suggestion : value := VDict [("t", VInt 1); ("list", VList [VStr "more"])].

Definition some_results : value :=
  VDict [("data", VList [suggestion; plain_hit; suggestion; plain_hit])].

Definition always (response : value) : value -> py value := fun _ => Ok response.

Definition down (text : string) : value -> py value := fun _ => Raise (Fault text).

End Legacy.

(** ** Lemmas on the loop *)

Open Scope list_scope.

Lemma format_loop_step query response rest start_index acc :
  format_loop ((query, response) :: rest) start_index acc =
  (br <- format_query start_index query response ;;
   format_loop rest (snd br) (acc ++ [fst br]))%py.
Proof.
  unfold format_query. cbn [format_loop].
  destruct (get response "error" VNone) as [error|e]; cbn [rbind]; [|reflexivity].
  destruct (truthy error); cbn [rbind fst snd]; [reflexivity|].
  destruct (subscript response "data") as [data|e]; cbn [rbind]; [|reflexivity].
  destruct (iterate data) as [items|e]; cbn [rbind]; [|reflexivity].
  destruct (filterM is_search_result items) as [results|e]; cbn [rbind]; [|reflexivity].
  destruct (mapM format_result (enumerate results start_index)) as [strs|e];
    cbn [rbind fst snd]; reflexivity.
Qed.

Lemma format_loop_acc pairs : forall start_index acc,
  format_loop pairs start_index acc =
  (blocks <- format_loop pairs start_index [] ;; Ok (acc ++ blocks))%py.
Proof.
  induction pairs as [|[query response] rest IH]; intros start_index acc.
  - cbn. now rewrite app_nil_r.
  - rewrite !format_loop_step.
    destruct (format_query start_index query response) as [[b s]|e];
      cbn [rbind fst snd]; [|reflexivity].
    rewrite (IH s (acc ++ [b])), (IH s ([] ++ [b])).
    destruct (format_loop rest s []) as [blocks|e]; cbn [rbind]; [|reflexivity].
    now rewrite <- app_assoc.
Qed.

Lemma str_app_assoc (a b c : string) :
  ((a ++ b) ++ c = a ++ (b ++ c))%string.
Proof.
  induction a as [|ch a IH]; cbn; [reflexivity | now rewrite IH].
Qed.

Lemma query_response_template_header query formatted :
  query_response_template query formatted = (header query ++ formatted)%string.
Proof.
  unfold query_response_template, header.
  now rewrite !str_app_assoc.
Qed.

Lemma subscript_ok_dict item key :
  is_ok (subscript item key) = true -> exists entries, item = VDict entries.
Proof.
  destruct item; cbn; try discriminate. intros _. now eexists.
Qed.

Lemma format_result_tagged n item :
  is_ok (subscript item "t") = true ->
  format_result (n, item) = Ok (render_entry (n, item)).
Proof.
  intros H. destruct (subscript_ok_dict _ _ H) as [entries ->].
  unfold format_result, render_entry, result_template, shown, get.
  cbn [fst snd].
  destruct (lookup "title" entries), (lookup "url" entries),
    (lookup "published" entries), (lookup "snippet" entries); reflexivity.
Qed.

Lemma mapM_format_result results : forall start_index,
  forallb (fun item => is_ok (subscript item "t")) results = true ->
  mapM format_result (enumerate results start_index)
  = Ok (map render_entry (enumerate results start_index)).
Proof.
  induction results as [|item results IH]; intros start_index H; [reflexivity|].
  cbn in H. apply andb_prop in H as [Hitem Hrest].
  cbn [enumerate mapM map].
  rewrite (format_result_tagged _ _ Hitem). cbn [rbind].
  now rewrite (IH _ Hrest).
Qed.

Lemma filterM_is_search_result items :
  forallb (fun item => is_ok (subscript item "t")) items = true ->
  filterM is_search_result items = Ok (filter organic items).
Proof.
  induction items as [|item items IH]; intros H; [reflexivity|].
  cbn in H. apply andb_prop in H as [Hitem Hrest].
  cbn [filterM filter]. unfold is_search_result at 1. unfold organic at 1.
  destruct (subscript item "t") as [t|e]; [|discriminate].
  cbn [rbind]. rewrite (IH Hrest). cbn [rbind].
  now destruct (eq_zero t).
Qed.

Lemma filterM_is_search_result_raises items :
  forallb (fun item => is_ok (subscript item "t")) items = false ->
  is_ok (filterM is_search_result items) = false.
Proof.
  induction items as [|item items IH]; intros H; [discriminate|].
  cbn in H. cbn [filterM]. unfold is_search_result at 1.
  destruct (subscript item "t") as [t|e]; [|reflexivity].
  cbn in H. cbn [rbind].
  destruct (filterM is_search_result items); [|reflexivity].
  now specialize (IH H).
Qed.

Lemma forallb_filter {A} (p q : A -> bool) l :
  forallb p l = true -> forallb p (filter q l) = true.
Proof.
  induction l as [|a l IH]; [reflexivity|].
  cbn. intros H. apply andb_prop in H as [Ha Hl].
  destruct (q a); cbn; [rewrite Ha|]; auto.
Qed.

(** The loop body on a well-formed response, in the vocabulary above. *)
Lemma format_query_well_formed start_index query response :
  well_formed response = true ->
  format_query start_index query response =
  match error_of response with
  | Some error => Ok (render_block (ErrorBlock query error), start_index)
  | None =>
      Ok (render_block
            (ResultsBlock query (enumerate (organic_items response) start_index)),
          start_index + Z.of_nat (List.length (organic_items response)))
  end.
Proof.
  unfold well_formed, format_query, error_of, organic_items, data_items.
  destruct (get response "error" VNone) as [error|e]; [|discriminate].
  cbn [rbind render_block].
  destruct (truthy error).
  - intros _. now rewrite query_response_template_header.
  - cbn [orb].
    destruct (subscript response "data") as [data|e]; [|discriminate].
    cbn [rbind].
    destruct (iterate data) as [items|e]; [|discriminate].
    intros H. cbn [rbind].
    rewrite (filterM_is_search_result _ H). cbn [rbind].
    rewrite mapM_format_result by now apply forallb_filter.
    cbn [rbind]. now rewrite query_response_template_header.
Qed.

Lemma format_query_ill_formed start_index query response :
  well_formed response = false ->
  is_ok (format_query start_index query response) = false.
Proof.
  unfold well_formed, format_query.
  destruct (get response "error" VNone) as [error|e]; [|reflexivity].
  cbn [rbind].
  destruct (truthy error); [discriminate|]. cbn [orb].
  destruct (subscript response "data") as [data|e]; [|reflexivity].
  cbn [rbind].
  destruct (iterate data) as [items|e]; [|reflexivity].
  intros H. cbn [rbind].
  pose proof (filterM_is_search_result_raises _ H) as Hf.
  destruct (filterM is_search_result items); [discriminate|reflexivity].
Qed.

Lemma format_loop_ok pairs : forall start_index acc,
  is_ok (format_loop pairs start_index acc)
  = forallb well_formed (map snd pairs).
Proof.
  induction pairs as [|[query response] rest IH]; intros start_index acc;
    [reflexivity|].
  rewrite format_loop_step. cbn [map snd forallb].
  destruct (well_formed response) eqn:Hwf.
  - rewrite (format_query_well_formed _ _ _ Hwf).
    destruct (error_of response); cbn [rbind fst snd andb]; apply IH.
  - pose proof (format_query_ill_formed start_index query _ Hwf) as Hq.
    destruct (format_query start_index query response); [discriminate|].
    reflexivity.
Qed.

Lemma format_loop_layout pairs : forall start_index,
  forallb well_formed (map snd pairs) = true ->
  format_loop pairs start_index []
  = Ok (map render_block (layout pairs start_index)).
Proof.
  induction pairs as [|[query response] rest IH]; intros start_index H;
    [reflexivity|].
  cbn [map snd forallb] in H. apply andb_prop in H as [Hwf Hrest].
  rewrite format_loop_step, (format_query_well_formed _ _ _ Hwf).
  cbn [layout].
  destruct (error_of response) as [error|]; cbn [rbind fst snd app];
    rewrite format_loop_acc, (IH _ Hrest); reflexivity.
Qed.

Lemma enumerate_snd {A} (l : list A) : forall start,
  map snd (enumerate l start) = l.
Proof.
  induction l as [|a l IH]; intros start; cbn; [reflexivity | now rewrite IH].
Qed.

Lemma enumerate_fst {A} (l : list A) : forall start,
  map fst (enumerate l start)
  = map (fun i => start + Z.of_nat i) (seq 0 (List.length l)).
Proof.
  induction l as [|a l IH]; intros start; [reflexivity|].
  cbn [enumerate map fst List.length seq].
  rewrite IH, <- seq_shift, map_map. f_equal; [lia|].
  apply map_ext. intros i. lia.
Qed.

Lemma layout_answers pairs : forall start_index,
  Forall2 answers pairs (layout pairs start_index).
Proof.
  induction pairs as [|[query response] rest IH]; intros start_index;
    cbn [layout]; [constructor|].
  destruct (error_of response) as [error|] eqn:He; constructor; auto;
    unfold answers; cbn [fst snd]; rewrite He; [reflexivity|].
  eexists. split; [reflexivity | apply enumerate_snd].
Qed.

Lemma map_seq_from {A} (f : nat -> A) len : forall start,
  map f (seq start len) = map (fun i => f (start + i)%nat) (seq 0 len).
Proof.
  induction len as [|len IH]; intros start; [reflexivity|].
  cbn [seq map]. rewrite Nat.add_0_r. f_equal.
  rewrite (IH (S start)), <- seq_shift, map_map.
  apply map_ext. intros i. now rewrite Nat.add_succ_r.
Qed.

Lemma layout_numbers pairs : forall start_index,
  List.concat (map numbers (layout pairs start_index))
  = map (fun i => start_index + Z.of_nat i)
      (seq 0 (total_organic (map snd pairs))).
Proof.
  unfold total_organic.
  induction pairs as [|[query response] rest IH]; intros start_index;
    [reflexivity|].
  cbn [layout map snd list_sum fold_right].
  unfold organic_count at 1.
  destruct (error_of response) as [error|]; cbn [map numbers List.concat].
  - rewrite IH. reflexivity.
  - rewrite IH, enumerate_fst, seq_app, map_app. f_equal.
    rewrite (map_seq_from _ _ (0 + _)).
    apply map_ext. intros i. lia.
Qed.

Lemma format_search_results_layout queries responses :
  forallb well_formed (map snd (combine queries responses)) = true ->
  format_search_results queries responses =
  Ok (join (nl ++ nl)%string
        (map render_block (layout (combine queries responses) 1))).
Proof.
  intros H. unfold format_search_results.
  now rewrite (format_loop_layout _ _ H).
Qed.

Lemma format_search_results_ok queries responses :
  is_ok (format_search_results queries responses)
  = forallb well_formed (map snd (combine queries responses)).
Proof.
  rewrite <- (format_loop_ok _ 1 []). unfold format_search_results.
  now destruct (format_loop (combine queries responses) 1 []).
Qed.

Lemma combine_snd {A B} (l : list A) : forall (l' : list B),
  List.length l = List.length l' -> map snd (combine l l') = l'.
Proof.
  induction l as [|a l IH]; intros [|b l'] H; try discriminate; [reflexivity|].
  cbn. f_equal. apply IH. now injection H.
Qed.

(** ** The formatter: numbering, filtering and fields *)

(** C1.  For aligned queries and responses (the empty batch included): the
    formatter returns on every batch of well-formed responses, and whenever
    it returns, its output is the blank-line join of one block per query,
    an error block for a response that signals an error and otherwise the
    organic ([t == 0]) items of the response, and the numbers of the
    entries, read through the blocks in order, are 1, 2, ..., N with N the
    number of organic items of the responses that signal no error.  A
    response signals an error when its [error] entry is true in a
    condition. *)
Theorem numbering_continuous queries responses :
  List.length queries = List.length responses ->
  (forallb well_formed responses = true ->
   is_ok (format_search_results queries responses) = true)
  /\ forall out,
       format_search_results queries responses = Ok out ->
       exists blocks,
         out = join (nl ++ nl)%string (map render_block blocks)
         /\ Forall2 answers (combine queries responses) blocks
         /\ List.concat (map numbers blocks)
            = map Z.of_nat (seq 1 (total_organic responses)).
Proof.
  intros Hlen.
  pose proof (format_search_results_ok queries responses) as Hok.
  rewrite (combine_snd _ _ Hlen) in Hok.
  split; [intros Hwf; now rewrite Hok|].
  intros out Hout.
  rewrite Hout in Hok. cbn in Hok. symmetry in Hok.
  rewrite format_search_results_layout in Hout
    by now rewrite (combine_snd _ _ Hlen).
  injection Hout as <-.
  exists (layout (combine queries responses) 1).
  repeat split.
  - apply layout_answers.
  - rewrite layout_numbers, (combine_snd _ _ Hlen), <- seq_shift, map_map.
    apply map_ext. intros i. lia.
Qed.

Lemma numbering_continuous_witness :
  List.length ["rocq"; "kagi"] = List.length [Sample.three_hits; Sample.two_hits]
  /\ is_ok (format_search_results ["rocq"; "kagi"]
              [Sample.three_hits; Sample.two_hits]) = true
  /\ exists blocks,
       format_search_results ["rocq"; "kagi"]
         [Sample.three_hits; Sample.two_hits]
       = Ok (join (nl ++ nl)%string (map render_block blocks))
       /\ List.concat (map numbers blocks) = [1; 2; 3; 4; 5].
Proof.
  destruct (numbering_continuous ["rocq"; "kagi"]
              [Sample.three_hits; Sample.two_hits] eq_refl) as [Hret Hnum].
  split; [reflexivity|]. split; [apply Hret; reflexivity|].
  destruct (Hnum _ eq_refl) as (blocks & Hout & _ & Hn).
  exists blocks. split; [rewrite <- Hout; reflexivity | exact Hn].
Defined.

(** The second query's results are numbered 4 and 5 when the first query
    has three organic results. *)
Example second_query_continues :
  map numbers
    (layout (combine ["rocq"; "kagi"] [Sample.three_hits; Sample.two_hits]) 1)
  = [[1; 2; 3]; [4; 5]].
Proof. reflexivity. Qed.

(** C6, as amended.  The formatter returns exactly when every response
    that is paired with a query is well-formed: a dictionary that signals
    an error, or one whose [data] can be iterated and holds only
    dictionaries with a [t] entry.  It then returns the listing, in which a
    missing [title], [url], [published] or [snippet] is shown by the
    sentinel; on any other batch it raises. *)
Theorem formatter_returns_iff_well_formed queries responses :
  match format_search_results queries responses with
  | Ok out =>
      forallb well_formed (map snd (combine queries responses)) = true
      /\ out = join (nl ++ nl)%string
                 (map render_block (layout (combine queries responses) 1))
  | Raise _ =>
      forallb well_formed (map snd (combine queries responses)) = false
  end.
Proof.
  pose proof (format_search_results_ok queries responses) as Hok.
  destruct (format_search_results queries responses) as [out|e] eqn:Hout;
    cbn in Hok; [|now symmetry].
  symmetry in Hok. split; [exact Hok|].
  rewrite (format_search_results_layout _ _ Hok) in Hout.
  now injection Hout.
Qed.

(** C6 as stated fails: a response with neither [error] nor [data], a
    [data] item without [t], a null [data] and a response that is not a
    dictionary each make the formatter raise. *)
Lemma formatter_raises :
  format_search_results ["q"] [VDict []] = Raise (KeyError "data")
  /\ format_search_results ["q"]
       [VDict [("data", VList [VDict [("title", VStr "x")]])]]
     = Raise (KeyError "t")
  /\ format_search_results ["q"] [VDict [("data", VNone)]] = Raise TypeError
  /\ format_search_results ["q"] [VList []] = Raise AttributeError.
Proof. repeat split. Qed.

(** C7.  A rendered organic result is a dictionary, and each of its four
    fields is shown on its own: by the sentinel when the field is absent,
    by its text otherwise, whatever the other three are. *)
Theorem missing_fields_sentinel result_number item :
  is_search_result item = Ok true ->
  exists entries,
    item = VDict entries
    /\ let field name :=
         match lookup name entries with
         | Some v => py_str v
         | None => "Not Available"
         end in
       format_result (result_number, item)
       = Ok (str_of_int result_number ++ ": " ++ field "title" ++ nl
             ++ field "url" ++ nl
             ++ "Published Date: " ++ field "published" ++ nl
             ++ field "snippet")%string.
Proof.
  intros H.
  assert (Ht : is_ok (subscript item "t") = true).
  { unfold is_search_result in H. now destruct (subscript item "t"). }
  destruct (subscript_ok_dict _ _ Ht) as [entries ->].
  exists entries. split; [reflexivity|].
  cbv zeta. now rewrite (format_result_tagged _ _ Ht).
Qed.

Lemma missing_fields_sentinel_witness :
  is_search_result Sample.bare_hit = Ok true
  /\ format_result (7, Sample.bare_hit)
     = Ok ("7: Not Available" ++ nl ++ "Not Available" ++ nl
           ++ "Published Date: Not Available" ++ nl ++ "Not Available")%string
  /\ format_result (8, VDict [("url", VStr "u"); ("t", VBool false)])
     = Ok ("8: Not Available" ++ nl ++ "u" ++ nl
           ++ "Published Date: Not Available" ++ nl ++ "Not Available")%string.
Proof.
  split; [reflexivity|]. split.
  - destruct (missing_fields_sentinel 7 Sample.bare_hit eq_refl)
      as (entries & Heq & Hfmt).
    injection Heq as <-. exact Hfmt.
  - destruct (missing_fields_sentinel 8
                (VDict [("url", VStr "u"); ("t", VBool false)]) eq_refl)
      as (entries & Heq & Hfmt).
    injection Heq as <-. exact Hfmt.
Defined.

Lemma format_loop_congr queries : forall responses responses' start_index acc,
  Forall2 (fun r r' => forall s q, format_query s q r = format_query s q r')
    responses responses' ->
  format_loop (combine queries responses) start_index acc
  = format_loop (combine queries responses') start_index acc.
Proof.
  induction queries as [|query queries IH];
    intros responses responses' start_index acc H; [reflexivity|].
  destruct H as [|r r' rs rs' Hr Hrs]; [reflexivity|].
  cbn [combine]. rewrite !format_loop_step, Hr.
  destruct (format_query start_index query r') as [[b s]|e];
    cbn [rbind fst snd]; [|reflexivity].
  now apply IH.
Qed.

Lemma Forall2_same {A} (R : A -> A -> Prop) (l : list A) :
  (forall a, R a a) -> Forall2 R l l.
Proof. intros HR. induction l; constructor; auto. Qed.

Lemma filter_idem {A} (p : A -> bool) (l : list A) :
  filter p (filter p l) = filter p l.
Proof.
  induction l as [|a l IH]; [reflexivity|].
  cbn. destruct (p a) eqn:Hp; cbn; [rewrite Hp, IH|]; auto.
Qed.

(** C8.  A response whose [data] list holds tagged items is formatted, in
    any batch and at any position, exactly as the response whose [data] is
    that list without the items whose [t] is not equal to 0: such items
    (the related searches with [t = 1] among them) change neither the text
    nor any number. *)
Theorem only_organic_rendered queries before response response' after items :
  subscript response "data" = Ok (VList items) ->
  forallb (fun item => is_ok (subscript item "t")) items = true ->
  subscript response' "data" = Ok (VList (filter organic items)) ->
  get response' "error" VNone = get response "error" VNone ->
  format_search_results queries (before ++ response :: after)
  = format_search_results queries (before ++ response' :: after).
Proof.
  intros Hdata Htags Hdata' Herror.
  unfold format_search_results. f_equal.
  apply format_loop_congr, Forall2_app; [now apply Forall2_same|].
  constructor; [|now apply Forall2_same].
  intros s q. unfold format_query.
  rewrite Herror, Hdata, Hdata'.
  destruct (get response "error" VNone) as [error|e]; [|reflexivity].
  cbn [rbind iterate]. destruct (truthy error); [reflexivity|].
  rewrite !filterM_is_search_result by (auto using forallb_filter).
  now rewrite filter_idem.
Qed.

Lemma only_organic_rendered_witness :
  format_search_results ["rocq"; "kagi"; "mcp"]
    [Sample.three_hits; Sample.two_hits; Sample.three_hits]
  = format_search_results ["rocq"; "kagi"; "mcp"]
      [Sample.three_hits; Sample.two_hits_only; Sample.three_hits].
Proof.
  apply (only_organic_rendered ["rocq"; "kagi"; "mcp"] [Sample.three_hits]
           Sample.two_hits Sample.two_hits_only [Sample.three_hits]
           [Sample.hit "d"; Sample.hit "e"; Sample.related]);
    reflexivity.
Defined.

Lemma format_loop_skip_error query response error before before_r :
  get response "error" VNone = Ok error ->
  truthy error = true ->
  forall after after_r start_index acc,
  List.length before = List.length before_r ->
  format_loop
    (combine (before ++ query :: after) (before_r ++ response :: after_r))
    start_index acc
  = (blocks <- format_loop (combine (before ++ after) (before_r ++ after_r))
                 start_index [] ;;
     Ok (acc ++ firstn (List.length before) blocks
         ++ [query_response_template query ("ERROR: " ++ py_str error)%string]
         ++ skipn (List.length before) blocks))%py.
Proof.
  intros Hget Htruthy after after_r.
  revert before_r.
  induction before as [|q before IH]; intros [|r before_r] start_index acc Hlen;
    try discriminate.
  - cbn [app combine List.length firstn skipn].
    rewrite format_loop_step. unfold format_query.
    rewrite Hget. cbn [rbind]. rewrite Htruthy. cbn [rbind fst snd].
    rewrite format_loop_acc.
    destruct (format_loop (combine after after_r) start_index [])
      as [blocks|e]; cbn [rbind]; [|reflexivity].
    now rewrite <- app_assoc.
  - cbn [app combine List.length]. rewrite !format_loop_step.
    destruct (format_query start_index q r) as [[b s]|e];
      cbn [rbind fst snd]; [|reflexivity].
    rewrite IH by now injection Hlen.
    rewrite (format_loop_acc _ s ([] ++ [b])).
    destruct (format_loop (combine (before ++ after) (before_r ++ after_r)) s [])
      as [blocks|e]; cbn [rbind]; [|reflexivity].
    cbn [app firstn skipn]. now rewrite <- !app_assoc.
Qed.

(** C2, as amended.  A response whose [error] entry is true in a condition
    gives its query the header followed by [ERROR: ] and the text of the
    error, whatever its [data] holds, and the blocks of the other queries
    are the blocks of the batch without that query: the formatted batch is
    the batch without the query with the error block put at the query's
    position. *)
Theorem error_block_replaces_results
    query response error before before_r after after_r :
  List.length before = List.length before_r ->
  get response "error" VNone = Ok error ->
  truthy error = true ->
  format_search_results (before ++ query :: after)
    (before_r ++ response :: after_r)
  = (blocks <- format_loop (combine (before ++ after) (before_r ++ after_r))
                 1 [] ;;
     Ok (join (nl ++ nl)%string
           (firstn (List.length before) blocks
            ++ [(header query ++ "ERROR: " ++ py_str error)%string]
            ++ skipn (List.length before) blocks)))%py.
Proof.
  intros Hlen Hget Htruthy. unfold format_search_results.
  rewrite (format_loop_skip_error _ _ _ _ _ Hget Htruthy _ _ _ _ Hlen).
  rewrite query_response_template_header.
  now destruct (format_loop (combine (before ++ after) (before_r ++ after_r)) 1 []).
Qed.

Lemma error_block_replaces_results_witness :
  format_search_results ["rocq"; "kagi"; "mcp"]
    [Sample.three_hits; Sample.failed; Sample.two_hits]
  = Ok (join (nl ++ nl)%string
          [render_block
             (ResultsBlock "rocq"
                [(1, Sample.hit "a"); (2, Sample.hit "b"); (3, Sample.hit "c")]);
           (header "kagi"
            ++ "ERROR: [{'code': 1, 'msg': 'Unauthorized'}]")%string;
           render_block
             (ResultsBlock "mcp" [(4, Sample.hit "d"); (5, Sample.hit "e")])]).
Proof.
  refine (eq_trans
            (error_block_replaces_results "kagi" Sample.failed
               Sample.upstream_error ["rocq"] [Sample.three_hits]
               ["mcp"] [Sample.two_hits] eq_refl eq_refl eq_refl) _).
  reflexivity.
Defined.

(** C2 as stated fails: a response that has an [error] entry holding
    [None] is formatted as a successful one, its [data] rendered and
    numbered, with no error line. *)
Lemma null_error_field_renders_data :
  subscript Sample.null_error "error" = Ok VNone
  /\ format_search_results ["q"] [Sample.null_error]
     = Ok (header "q" ++ "1: Not Available" ++ nl ++ "Not Available" ++ nl
           ++ "Published Date: Not Available" ++ nl ++ "Not Available")%string
  /\ format_search_results ["q"] [Sample.null_error]
     <> Ok (header "q" ++ "ERROR: " ++ py_str VNone)%string.
Proof. repeat split. discriminate. Qed.

(** ** The tools *)

Lemma mem_In e s : mem e s = true <-> In e s.
Proof.
  unfold mem. rewrite existsb_exists. split.
  - intros (x & Hin & Heq). apply String.eqb_eq in Heq. now subst.
  - intros Hin. exists e. split; [exact Hin | apply String.eqb_refl].
Qed.

Lemma mem_not_In e s : ~ In e s -> mem e s = false.
Proof.
  intros Hnot. destruct (mem e s) eqn:Hmem; [|reflexivity].
  now apply mem_In in Hmem.
Qed.

Lemma eqb_empty_false url : url <> EmptyString -> String.eqb url EmptyString = false.
Proof. intros H. now apply String.eqb_neq. Qed.

(** C3.  Whatever the gateway would answer, the search tool called with
    no query and the summarizer called with an empty URL raise their
    [ValueError] and leave the log of requests as it was. *)
Theorem empty_inputs_rejected
    search_task summarize environ engines_order summary_type target_language log :
  kagi_search_fetch search_task [] log
  = (Raise (ValueError (VStr "Search called with no queries.")), log)
  /\ kagi_summarizer summarize environ engines_order EmptyString
       summary_type target_language log
     = (Raise (ValueError (VStr "Summarizer called with no URL.")), log).
Proof. split; reflexivity. Qed.

(** C4.  With the configured engine outside cecil, agnes, daphne and
    muriel, the summarizer raises a [ValueError] and hands nothing to the
    gateway; the URL is checked first, and for a URL that is not empty the
    message is the configuration message, which names the configured
    value and lists the members of the valid set in the interpreter's
    iteration order. *)
Theorem invalid_engine_rejected
    summarize environ engines_order url summary_type target_language log :
  Permutation engines_order valid_engines ->
  ~ In (environ_get environ "KAGI_SUMMARIZER_ENGINE" "cecil")
       ["cecil"; "agnes"; "daphne"; "muriel"] ->
  exists arg,
    kagi_summarizer summarize environ engines_order url
      summary_type target_language log
    = (Raise (ValueError arg), log)
    /\ (url <> EmptyString ->
        arg = VStr
          ("Summarizer configured incorrectly, invalid summarization engine set: "
           ++ environ_get environ "KAGI_SUMMARIZER_ENGINE" "cecil"
           ++ ". Must be one of the following: {"
           ++ join ", " (map repr_str engines_order) ++ "}")%string).
Proof.
  intros _ Hengine. unfold kagi_summarizer.
  destruct (String.eqb url EmptyString) eqn:Hurl.
  - eexists. split; [reflexivity|].
    apply String.eqb_eq in Hurl. now intros [].
  - rewrite (mem_not_In _ valid_engines Hengine). cbn [negb].
    eexists. split; [reflexivity|]. intros _. reflexivity.
Qed.

Lemma invalid_engine_rejected_witness :
  kagi_summarizer (Sample.answer Sample.summary_with_error)
    Sample.bogus_environ ["daphne"; "cecil"; "muriel"; "agnes"]
    "https://example.org" Summary None []
  = (Raise (ValueError (VStr
       "Summarizer configured incorrectly, invalid summarization engine set: bogus. Must be one of the following: {'daphne', 'cecil', 'muriel', 'agnes'}")),
     []).
Proof.
  assert (Hperm : Permutation ["daphne"; "cecil"; "muriel"; "agnes"]
                    valid_engines).
  { unfold valid_engines.
    apply (Permutation_cons_app ["cecil"; "agnes"] ["muriel"]).
    apply perm_skip, perm_swap. }
  assert (Hout : ~ In (environ_get Sample.bogus_environ
                         "KAGI_SUMMARIZER_ENGINE" "cecil")
                      ["cecil"; "agnes"; "daphne"; "muriel"]).
  { cbn. intros [H|[H|[H|[H|[]]]]]; discriminate. }
  destruct (invalid_engine_rejected (Sample.answer Sample.summary_with_error)
              Sample.bogus_environ ["daphne"; "cecil"; "muriel"; "agnes"]
              "https://example.org" Summary None [] Hperm Hout)
    as (arg & Hrun & Hmsg).
  rewrite Hrun, Hmsg by discriminate. reflexivity.
Defined.

Lemma collect_fault search_task queries : forall first i query e,
  nth_error queries i = Some query ->
  task_fault (search_task (first + i)%nat query) = Some e ->
  exists j query' e',
    (j <= i)%nat
    /\ nth_error queries j = Some query'
    /\ task_fault (search_task (first + j)%nat query') = Some e'
    /\ collect search_task first queries = inl e'.
Proof.
  induction queries as [|head queries IH]; intros first i query e Hnth Hfault.
  - now destruct i.
  - cbn [collect].
    destruct (search_task first head) as [response|text|] eqn:Hhead.
    + destruct i as [|i].
      * injection Hnth as <-. rewrite Nat.add_0_r, Hhead in Hfault.
        discriminate.
      * cbn [nth_error] in Hnth. rewrite Nat.add_succ_r in Hfault.
        destruct (IH (S first) i query e Hnth Hfault)
          as (j & query' & e' & Hle & Hj & Hfj & Hcollect).
        exists (S j), query', e'. rewrite Hcollect, Nat.add_succ_r.
        repeat split; auto. lia.
    + exists 0%nat, head, (ClientError text).
      rewrite Nat.add_0_r, Hhead. repeat split; auto. lia.
    + exists 0%nat, head, DeadlineExceeded.
      rewrite Nat.add_0_r, Hhead. repeat split; auto. lia.
Qed.

(** C9.  When the task of some query of the batch raised or was not done
    at the deadline, [kagi_search_fetch] raises one [ValueError] and
    returns no listing: its message is the text about the API being in
    beta and access having to be granted, followed by [str(e)] for the
    fault [e] of a task, the first one in the order of the queries that
    did not return. *)
Theorem fanout_fault_aborts search_task queries log i query e :
  nth_error queries i = Some query ->
  task_fault (search_task i query) = Some e ->
  exists j query' e',
    (j <= i)%nat
    /\ nth_error queries j = Some query'
    /\ task_fault (search_task j query') = Some e'
    /\ fst (kagi_search_fetch search_task queries log)
       = Raise (ValueError (VStr
           ("Error calling Kagi Search API (Currently in beta, make sure you have been granted access. Can be granted by emailing support@kagi.com): "
            ++ str_pool_error e')%string)).
Proof.
  intros Hnth Hfault.
  destruct (collect_fault search_task queries 0 i query e Hnth Hfault)
    as (j & query' & e' & Hle & Hj & Hfj & Hcollect).
  exists j, query', e'. repeat split; auto.
  destruct queries as [|head queries]; [now destruct i|].
  unfold kagi_search_fetch, bind, executor_map. now rewrite Hcollect.
Qed.

Lemma fanout_fault_aborts_witness :
  exists j query' e',
    (j <= 1)%nat
    /\ nth_error ["rocq"; "kagi"; "mcp"] j = Some query'
    /\ task_fault (Sample.second_fails j query') = Some e'
    /\ fst (kagi_search_fetch Sample.second_fails ["rocq"; "kagi"; "mcp"] [])
       = Raise (ValueError (VStr
           ("Error calling Kagi Search API (Currently in beta, make sure you have been granted access. Can be granted by emailing support@kagi.com): "
            ++ str_pool_error e')%string)).
Proof.
  exact (fanout_fault_aborts Sample.second_fails ["rocq"; "kagi"; "mcp"] []
           1%nat "kagi" (ClientError "502 Bad Gateway") eq_refl eq_refl).
Defined.

(** A batch whose second call fails, and one whose second task is still
    pending at the deadline. *)
Example second_call_fails :
  kagi_search_fetch Sample.second_fails ["rocq"; "kagi"; "mcp"] []
  = (Raise (ValueError (VStr
       "Error calling Kagi Search API (Currently in beta, make sure you have been granted access. Can be granted by emailing support@kagi.com): 502 Bad Gateway")),
     [SearchRequest "rocq"; SearchRequest "kagi"; SearchRequest "mcp"]).
Proof. reflexivity. Qed.

Example second_call_pending :
  kagi_search_fetch Sample.second_pending ["rocq"; "kagi"; "mcp"] []
  = (Raise (ValueError (VStr
       "Error calling Kagi Search API (Currently in beta, make sure you have been granted access. Can be granted by emailing support@kagi.com): ")),
     [SearchRequest "rocq"; SearchRequest "kagi"; SearchRequest "mcp"]).
Proof. reflexivity. Qed.

(** The summarizer past its two checks, on the response the gateway
    returned. *)
Lemma summarizer_on_response
    summarize environ engines_order url summary_type target_language log response :
  url <> EmptyString ->
  In (environ_get environ "KAGI_SUMMARIZER_ENGINE" "cecil") valid_engines ->
  summarize url (environ_get environ "KAGI_SUMMARIZER_ENGINE" "cecil")
    summary_type target_language = Ok response ->
  kagi_summarizer summarize environ engines_order url
    summary_type target_language log
  = ((data <- subscript response "data" ;;
      output <- subscript data "output" ;;
      error <- get response "error" VNone ;;
      if truthy error then Raise (ValueError error) else Ok output)%py,
     log ++ [SummarizeRequest url
               (environ_get environ "KAGI_SUMMARIZER_ENGINE" "cecil")
               summary_type target_language]).
Proof.
  intros Hurl Hengine Hresponse. unfold kagi_summarizer.
  rewrite (eqb_empty_false _ Hurl).
  apply mem_In in Hengine. rewrite Hengine. cbn [negb].
  unfold bind, call_summarize, lift, raise, ret. rewrite Hresponse.
  destruct (subscript response "data") as [data|e]; cbn [rbind]; [|reflexivity].
  destruct (subscript data "output") as [output|e]; cbn [rbind]; [|reflexivity].
  destruct (get response "error" VNone) as [error|e]; cbn [rbind]; [|reflexivity].
  now destruct (truthy error).
Qed.

(** C5, as amended.  When the response the gateway returned has a
    [data.output] and an [error] entry that is true in a condition, the
    summarizer raises [ValueError(error)] after its one request, and the
    output is not returned. *)
Theorem summarizer_error_precedence
    summarize environ engines_order url summary_type target_language log
    response data output error :
  url <> EmptyString ->
  In (environ_get environ "KAGI_SUMMARIZER_ENGINE" "cecil") valid_engines ->
  summarize url (environ_get environ "KAGI_SUMMARIZER_ENGINE" "cecil")
    summary_type target_language = Ok response ->
  subscript response "data" = Ok data ->
  subscript data "output" = Ok output ->
  subscript response "error" = Ok error ->
  truthy error = true ->
  kagi_summarizer summarize environ engines_order url
    summary_type target_language log
  = (Raise (ValueError error),
     log ++ [SummarizeRequest url
               (environ_get environ "KAGI_SUMMARIZER_ENGINE" "cecil")
               summary_type target_language]).
Proof.
  intros Hurl Hengine Hresponse Hdata Houtput Herror Htruthy.
  rewrite (summarizer_on_response _ _ _ _ _ _ _ _ Hurl Hengine Hresponse).
  rewrite Hdata. cbn [rbind]. rewrite Houtput. cbn [rbind].
  destruct response as [| | | | |entries]; try discriminate.
  cbn in Herror |- *.
  destruct (lookup "error" entries) as [x|]; [|discriminate].
  injection Herror as ->. cbn [rbind]. now rewrite Htruthy.
Qed.

Lemma summarizer_error_precedence_witness :
  kagi_summarizer (Sample.answer Sample.summary_with_error)
    Sample.no_environ valid_engines "https://example.org" Takeaway (Some "EN") []
  = (Raise (ValueError Sample.upstream_error),
     [SummarizeRequest "https://example.org" "cecil" Takeaway (Some "EN")]).
Proof.
  assert (Hurl : "https://example.org" <> EmptyString) by discriminate.
  assert (Hengine : In (environ_get Sample.no_environ
                          "KAGI_SUMMARIZER_ENGINE" "cecil") valid_engines)
    by (left; reflexivity).
  exact (summarizer_error_precedence (Sample.answer Sample.summary_with_error)
           Sample.no_environ valid_engines "https://example.org" Takeaway
           (Some "EN") [] Sample.summary_with_error
           (VDict [("output", VStr "A summary.")]) (VStr "A summary.")
           Sample.upstream_error Hurl Hengine eq_refl eq_refl eq_refl
           eq_refl eq_refl).
Defined.

(** C5 as stated fails on two responses that carry an [error] field: with
    the field holding [None] the output is returned, and with no [data]
    beside the error the call raises [KeyError], not the error. *)
Lemma summarizer_error_field_not_raised :
  (subscript Sample.summary_null_error "error" = Ok VNone
   /\ kagi_summarizer (Sample.answer Sample.summary_null_error)
        Sample.no_environ valid_engines "https://example.org" Summary None []
      = (Ok (VStr "A summary."),
         [SummarizeRequest "https://example.org" "cecil" Summary None]))
  /\ (subscript Sample.error_only "error" = Ok Sample.upstream_error
      /\ kagi_summarizer (Sample.answer Sample.error_only)
           Sample.no_environ valid_engines "https://example.org" Summary None []
         = (Raise (KeyError "data"),
            [SummarizeRequest "https://example.org" "cecil" Summary None])).
Proof. repeat split. Qed.

(** C10.  On the response the gateway returned, the summarizer reads
    [data] and then [output] before it looks at [error]: a response with
    an [error] field and no [data] raises [KeyError('data')], one whose
    [data] is a record without [output] raises [KeyError('output')], and
    whenever the call raises the [ValueError] of the error check, the
    response has a [data.output]. *)
Theorem summarizer_extracts_before_error_check
    summarize environ engines_order url summary_type target_language log
    entries error :
  url <> EmptyString ->
  In (environ_get environ "KAGI_SUMMARIZER_ENGINE" "cecil") valid_engines ->
  summarize url (environ_get environ "KAGI_SUMMARIZER_ENGINE" "cecil")
    summary_type target_language = Ok (VDict entries) ->
  lookup "error" entries = Some error ->
  let run :=
    kagi_summarizer summarize environ engines_order url
      summary_type target_language log in
  let log' :=
    log ++ [SummarizeRequest url
              (environ_get environ "KAGI_SUMMARIZER_ENGINE" "cecil")
              summary_type target_language] in
  (lookup "data" entries = None -> run = (Raise (KeyError "data"), log'))
  /\ (forall record,
        lookup "data" entries = Some (VDict record) ->
        lookup "output" record = None ->
        run = (Raise (KeyError "output"), log'))
  /\ (forall arg,
        run = (Raise (ValueError arg), log') ->
        arg = error
        /\ exists data output,
             lookup "data" entries = Some data
             /\ subscript data "output" = Ok output).
Proof.
  intros Hurl Hengine Hresponse Herror run log'. subst run log'.
  rewrite (summarizer_on_response _ _ _ _ _ _ _ _ Hurl Hengine Hresponse).
  cbn [subscript get]. rewrite Herror.
  split; [|split].
  - now intros ->.
  - intros record -> Houtput. cbn [rbind subscript]. now rewrite Houtput.
  - intros arg.
    destruct (lookup "data" entries) as [data|]; cbn [rbind]; [|discriminate].
    destruct (subscript data "output") as [output|e] eqn:Hout; cbn [rbind].
    + destruct (truthy error); [|discriminate].
      intros H. injection H as <-. split; [reflexivity|]. now exists data, output.
    + unfold subscript in Hout.
      destruct data as [| | | | |record]; try (injection Hout as <-; discriminate).
      destruct (lookup "output" record); [discriminate|].
      injection Hout as <-. discriminate.
Qed.

Lemma summarizer_extracts_before_error_check_witness :
  kagi_summarizer (Sample.answer Sample.error_only)
    Sample.no_environ valid_engines "https://example.org" Summary None []
  = (Raise (KeyError "data"),
     [SummarizeRequest "https://example.org" "cecil" Summary None])
  /\ kagi_summarizer (Sample.answer Sample.error_no_output)
       Sample.no_environ valid_engines "https://example.org" Summary None []
     = (Raise (KeyError "output"),
        [SummarizeRequest "https://example.org" "cecil" Summary None]).
Proof.
  assert (Hurl : "https://example.org" <> EmptyString) by discriminate.
  assert (Hengine : In (environ_get Sample.no_environ
                          "KAGI_SUMMARIZER_ENGINE" "cecil") valid_engines)
    by (left; reflexivity).
  split.
  - apply (summarizer_extracts_before_error_check
             (Sample.answer Sample.error_only) Sample.no_environ valid_engines
             "https://example.org" Summary None []
             [("error", Sample.upstream_error)] Sample.upstream_error
             Hurl Hengine eq_refl eq_refl).
    reflexivity.
  - apply (summarizer_extracts_before_error_check
             (Sample.answer Sample.error_no_output) Sample.no_environ
             valid_engines "https://example.org" Summary None []
             [("data", VDict []); ("error", Sample.upstream_error)]
             Sample.upstream_error Hurl Hengine eq_refl eq_refl)
      with (record := []); reflexivity.
Defined.


(** ** Further properties of the formatter *)

Lemma combine_firstn_min {A B} (l : list A) : forall (l' : list B),
  combine l l'
  = combine (firstn (Nat.min (List.length l) (List.length l')) l)
      (firstn (Nat.min (List.length l) (List.length l')) l').
Proof.
  induction l as [|a l IH]; intros [|b l']; try reflexivity.
  cbn. f_equal. apply IH.
Qed.

(** X1.  [zip] stops at the shorter list: the formatter ignores the
    queries that have no response and the responses that have no query. *)
Theorem formatter_ignores_surplus queries responses :
  let n := Nat.min (List.length queries) (List.length responses) in
  format_search_results queries responses
  = format_search_results (firstn n queries) (firstn n responses).
Proof.
  cbv zeta. unfold format_search_results.
  now rewrite <- combine_firstn_min.
Qed.

Lemma format_query_index start_index query response b next :
  format_query start_index query response = Ok (b, next) ->
  next = start_index + Z.of_nat (organic_count response).
Proof.
  intros H. destruct (well_formed response) eqn:Hwf.
  - rewrite (format_query_well_formed _ _ _ Hwf) in H.
    unfold organic_count. destruct (error_of response).
    + injection H as _ <-. cbn. lia.
    + now injection H as _ <-.
  - pose proof (format_query_ill_formed start_index query _ Hwf) as Hq.
    now rewrite H in Hq.
Qed.

Lemma format_loop_app before : forall after start_index acc,
  format_loop (before ++ after) start_index acc
  = (blocks <- format_loop before start_index acc ;;
     format_loop after
       (start_index + Z.of_nat (total_organic (map snd before))) blocks)%py.
Proof.
  unfold total_organic.
  induction before as [|[query response] before IH]; intros after start_index acc.
  - cbn. now rewrite Z.add_0_r.
  - cbn [app]. rewrite !format_loop_step.
    destruct (format_query start_index query response) as [[b next]|e] eqn:Hq;
      cbn [rbind fst snd]; [|reflexivity].
    rewrite IH, (format_query_index _ _ _ _ _ Hq).
    cbn [map snd list_sum fold_right]. rewrite Nat2Z.inj_add.
    now rewrite Z.add_assoc.
Qed.

Lemma combine_app_aligned {A B} (l1 : list A) : forall (l1' : list B) l2 l2',
  List.length l1 = List.length l1' ->
  combine (l1 ++ l2) (l1' ++ l2') = combine l1 l1' ++ combine l2 l2'.
Proof.
  induction l1 as [|a l1 IH]; intros [|b l1'] l2 l2' H; try discriminate;
    [reflexivity|].
  cbn. f_equal. apply IH. now injection H.
Qed.

(** X2.  Formatting two batches as one: the blocks of the first batch
    followed by the blocks of the second, whose numbering starts after the
    organic results of the first; the whole raises what the first batch
    raises, or else what the second does. *)
Theorem formatter_concatenates queries responses queries' responses' :
  List.length queries = List.length responses ->
  format_search_results (queries ++ queries') (responses ++ responses')
  = (first <- format_loop (combine queries responses) 1 [] ;;
     second <- format_loop (combine queries' responses')
                 (1 + Z.of_nat (total_organic responses)) [] ;;
     Ok (join (nl ++ nl)%string (first ++ second)))%py.
Proof.
  intros Hlen. unfold format_search_results.
  rewrite (combine_app_aligned _ _ _ _ Hlen), format_loop_app.
  rewrite (combine_snd _ _ Hlen).
  destruct (format_loop (combine queries responses) 1 []) as [first|e];
    cbn [rbind]; [|reflexivity].
  rewrite format_loop_acc.
  now destruct (format_loop (combine queries' responses')
                  (1 + Z.of_nat (total_organic responses)) []).
Qed.

Lemma formatter_concatenates_witness :
  format_search_results (["rocq"] ++ ["kagi"])
    ([Sample.three_hits] ++ [Sample.two_hits])
  = Ok (join (nl ++ nl)%string
          (map render_block
             (layout [("rocq", Sample.three_hits)] 1
              ++ layout [("kagi", Sample.two_hits)] 4))).
Proof.
  refine (eq_trans
            (formatter_concatenates ["rocq"] [Sample.three_hits]
               ["kagi"] [Sample.two_hits] eq_refl) _).
  reflexivity.
Defined.

Lemma format_loop_length pairs : forall start_index acc blocks,
  format_loop pairs start_index acc = Ok blocks ->
  List.length blocks = (List.length acc + List.length pairs)%nat.
Proof.
  induction pairs as [|[query response] rest IH];
    intros start_index acc blocks H.
  - injection H as <-. cbn. lia.
  - rewrite format_loop_step in H.
    destruct (format_query start_index query response) as [[b next]|e];
      cbn [rbind fst snd] in H; [|discriminate].
    rewrite (IH _ _ _ H), length_app. cbn. lia.
Qed.

(** X3.  When the loop ends without raising it has appended one block per
    pair of a query and a response, also for the responses that signal an
    error and for those without organic results. *)
Theorem one_block_per_query queries responses blocks :
  format_loop (combine queries responses) 1 [] = Ok blocks ->
  List.length blocks
  = Nat.min (List.length queries) (List.length responses).
Proof.
  intros H. rewrite (format_loop_length _ _ _ _ H), length_combine.
  reflexivity.
Qed.

Lemma one_block_per_query_witness :
  List.length
    [render_block (ErrorBlock "rocq" Sample.upstream_error);
     render_block (ResultsBlock "kagi" [])]
  = Nat.min (List.length ["rocq"; "kagi"; "mcp"])
      (List.length [Sample.failed; VDict [("data", VList [Sample.related])]]).
Proof.
  apply (one_block_per_query ["rocq"; "kagi"; "mcp"]
           [Sample.failed; VDict [("data", VList [Sample.related])]]).
  reflexivity.
Defined.

Lemma str_app_empty (s : string) : (s ++ EmptyString)%string = s.
Proof. induction s as [|c s IH]; cbn; [reflexivity | now rewrite IH]. Qed.

Lemma format_loop_insert query response b before : forall before_r,
  (forall start_index, format_query start_index query response = Ok (b, start_index)) ->
  forall after after_r start_index acc,
  List.length before = List.length before_r ->
  format_loop
    (combine (before ++ query :: after) (before_r ++ response :: after_r))
    start_index acc
  = (blocks <- format_loop (combine (before ++ after) (before_r ++ after_r))
                 start_index [] ;;
     Ok (acc ++ firstn (List.length before) blocks ++ [b]
         ++ skipn (List.length before) blocks))%py.
Proof.
  intros before_r Hq after after_r start_index acc Hlen.
  rewrite !combine_app_aligned by assumption.
  rewrite format_loop_app. cbn [combine].
  rewrite (format_loop_acc (combine before before_r)).
  rewrite (format_loop_app (combine before before_r) (combine after after_r)).
  destruct (format_loop (combine before before_r) start_index [])
    as [first|e] eqn:Hfirst; cbn [rbind]; [|reflexivity].
  rewrite format_loop_step, Hq. cbn [rbind fst snd].
  rewrite format_loop_acc.
  rewrite (format_loop_acc (combine after after_r) _ first).
  destruct (format_loop (combine after after_r)
              (start_index + Z.of_nat (total_organic (map snd (combine before before_r))))
              []) as [second|e]; cbn [rbind]; [|reflexivity].
  assert (Hn : List.length first = List.length before).
  { rewrite (format_loop_length _ _ _ _ Hfirst), length_combine, <- Hlen.
    cbn. now rewrite Nat.min_id. }
  rewrite <- Hn, firstn_app, skipn_app, firstn_all, skipn_all, Nat.sub_diag.
  cbn [firstn skipn]. now rewrite !app_nil_r, <- !app_assoc.
Qed.

(** X4.  A query whose response is well-formed, signals no error and has
    no organic result still gets its block, the header with nothing under
    it, and leaves the numbering of the other queries as it is without that
    query. *)
Theorem empty_results_block query response before before_r after after_r :
  List.length before = List.length before_r ->
  well_formed response = true ->
  error_of response = None ->
  organic_items response = [] ->
  format_search_results (before ++ query :: after)
    (before_r ++ response :: after_r)
  = (blocks <- format_loop (combine (before ++ after) (before_r ++ after_r))
                 1 [] ;;
     Ok (join (nl ++ nl)%string
           (firstn (List.length before) blocks ++ [header query]
            ++ skipn (List.length before) blocks)))%py.
Proof.
  intros Hlen Hwf Herr Hnone. unfold format_search_results.
  rewrite (format_loop_insert query response (header query)); auto.
  - now destruct (format_loop (combine (before ++ after) (before_r ++ after_r)) 1 []).
  - intros s. rewrite (format_query_well_formed _ _ _ Hwf), Herr, Hnone.
    cbn. now rewrite str_app_empty, Z.add_0_r.
Qed.

Lemma empty_results_block_witness :
  format_search_results ["rocq"; "kagi"; "mcp"]
    [Sample.three_hits; VDict [("data", VList [Sample.related])];
     Sample.two_hits]
  = Ok (join (nl ++ nl)%string
          [render_block
             (ResultsBlock "rocq"
                [(1, Sample.hit "a"); (2, Sample.hit "b"); (3, Sample.hit "c")]);
           header "kagi";
           render_block
             (ResultsBlock "mcp" [(4, Sample.hit "d"); (5, Sample.hit "e")])]).
Proof.
  refine (eq_trans
            (empty_results_block "kagi" (VDict [("data", VList [Sample.related])])
               ["rocq"] [Sample.three_hits] ["mcp"] [Sample.two_hits]
               eq_refl eq_refl eq_refl eq_refl) _).
  reflexivity.
Defined.

(** X5.  Of a response that signals an error only the error is looked at:
    two responses with the same error give the same output, whatever else
    they hold ([data] may be missing, null or malformed). *)
Theorem errored_response_opaque
    queries before response response' after error :
  get response "error" VNone = Ok error ->
  get response' "error" VNone = Ok error ->
  truthy error = true ->
  format_search_results queries (before ++ response :: after)
  = format_search_results queries (before ++ response' :: after).
Proof.
  intros Hget Hget' Htruthy. unfold format_search_results. f_equal.
  apply format_loop_congr, Forall2_app; [now apply Forall2_same|].
  constructor; [|now apply Forall2_same].
  intros s q. unfold format_query. rewrite Hget, Hget'. cbn [rbind].
  now rewrite Htruthy.
Qed.

Lemma errored_response_opaque_witness :
  format_search_results ["rocq"; "kagi"] [Sample.three_hits; Sample.failed]
  = format_search_results ["rocq"; "kagi"]
      [Sample.three_hits;
       VDict [("data", VNone); ("error", Sample.upstream_error)]].
Proof.
  exact (errored_response_opaque ["rocq"; "kagi"] [Sample.three_hits]
           Sample.failed
           (VDict [("data", VNone); ("error", Sample.upstream_error)])
           [] Sample.upstream_error eq_refl eq_refl eq_refl).
Defined.

Lemma filterM_is_search_result_exn items e :
  filterM is_search_result items = Raise e ->
  e = KeyError "t" \/ e = TypeError.
Proof.
  induction items as [|item items IH]; [discriminate|].
  cbn [filterM]. unfold is_search_result at 1.
  destruct (subscript item "t") as [t|e'] eqn:Ht; cbn [rbind].
  - destruct (filterM is_search_result items); cbn [rbind]; [discriminate|].
    intros H. injection H as <-. now apply IH.
  - intros H. injection H as <-. unfold subscript in Ht.
    destruct item as [| | | | |entries];
      try (injection Ht as <-; now right).
    destruct (lookup "t" entries); [discriminate|].
    injection Ht as <-. now left.
Qed.

Lemma mapM_format_result_exn entries e :
  mapM format_result entries = Raise e -> e = AttributeError.
Proof.
  induction entries as [|[n item] entries IH]; [discriminate|].
  cbn [mapM].
  destruct (format_result (n, item)) as [text|e'] eqn:Hfmt; cbn [rbind].
  - destruct (mapM format_result entries); cbn [rbind]; [discriminate|].
    intros H. injection H as <-. now apply IH.
  - intros H. injection H as <-. unfold format_result, get in Hfmt.
    destruct item as [| | | | |fields]; try (now injection Hfmt).
    destruct (lookup "title" fields), (lookup "url" fields),
      (lookup "published" fields), (lookup "snippet" fields); discriminate.
Qed.

Lemma format_query_exn start_index query response e :
  format_query start_index query response = Raise e ->
  e = KeyError "data" \/ e = KeyError "t" \/ e = TypeError
  \/ e = AttributeError.
Proof.
  unfold format_query.
  destruct (get response "error" VNone) as [error|e'] eqn:Hget; cbn [rbind].
  - destruct response as [| | | | |entries]; try discriminate.
    destruct (truthy error); [discriminate|].
    cbn [subscript].
    destruct (lookup "data" entries) as [data|]; cbn [rbind].
    + destruct (iterate data) as [items|e'] eqn:Hiter; cbn [rbind].
      * destruct (filterM is_search_result items) as [results|e'] eqn:Hf;
          cbn [rbind].
        -- destruct (mapM format_result (enumerate results start_index))
             as [strs|e'] eqn:Hm; cbn [rbind]; [discriminate|].
           intros H. injection H as <-.
           right. right. right. now apply mapM_format_result_exn in Hm.
        -- intros H. injection H as <-.
           destruct (filterM_is_search_result_exn _ _ Hf) as [->| ->]; auto.
      * intros H. injection H as <-.
        destruct data; try discriminate; injection Hiter as <-; auto.
    + intros H. injection H as <-. now left.
  - intros H. injection H as <-.
    destruct response as [| | | | |entries];
      try (injection Hget as <-; auto).
    cbn in Hget. destruct (lookup "error" entries); discriminate.
Qed.

(** X6.  The formatter raises nothing but the [KeyError] of a missing
    [data] or [t], a [TypeError] or an [AttributeError]; it never raises a
    [ValueError]. *)
Theorem formatter_exceptions queries responses e :
  format_search_results queries responses = Raise e ->
  e = KeyError "data" \/ e = KeyError "t" \/ e = TypeError
  \/ e = AttributeError.
Proof.
  unfold format_search_results.
  destruct (format_loop (combine queries responses) 1 []) as [blocks|e']
    eqn:Hloop; cbn [rbind]; [discriminate|].
  intros H. injection H as <-.
  revert Hloop. generalize 1, (@nil string).
  induction (combine queries responses) as [|[query response] rest IH];
    intros start_index acc; [discriminate|].
  rewrite format_loop_step.
  destruct (format_query start_index query response) as [[b next]|e] eqn:Hq;
    cbn [rbind fst snd].
  - apply IH.
  - intros H. injection H as <-. now apply format_query_exn in Hq.
Qed.

Lemma formatter_exceptions_witness :
  KeyError "t" = KeyError "data" \/ KeyError "t" = KeyError "t"
  \/ KeyError "t" = TypeError \/ KeyError "t" = AttributeError.
Proof.
  apply (formatter_exceptions ["q"]
           [VDict [("data", VList [VDict [("title", VStr "x")]])]]).
  reflexivity.
Defined.

(** ** Further properties of the tools *)

Lemma collect_returned search_task queries : forall first responses,
  List.length responses = List.length queries ->
  (forall i query response,
     nth_error queries i = Some query ->
     nth_error responses i = Some response ->
     search_task (first + i)%nat query = Returned response) ->
  collect search_task first queries = inr responses.
Proof.
  induction queries as [|query queries IH]; intros first [|response responses]
    Hlen Hall; try discriminate; [reflexivity|].
  cbn [collect].
  rewrite <- (Nat.add_0_r first) at 1.
  rewrite (Hall 0%nat query response eq_refl eq_refl).
  rewrite (IH (S first) responses); [reflexivity | now injection Hlen |].
  intros i q r Hq Hr.
  replace (S first + i)%nat with (first + S i)%nat by lia. now apply Hall.
Qed.

(** X7.  When the task of every query returns, [kagi_search_fetch] hands
    one request per query to the gateway and its result is the result of
    the formatter on the responses taken in the order of the queries; an
    exception of the formatter is raised as it is, outside the [try]. *)
Theorem search_formats_responses search_task queries responses log :
  queries <> [] ->
  List.length responses = List.length queries ->
  (forall i query response,
     nth_error queries i = Some query ->
     nth_error responses i = Some response ->
     search_task i query = Returned response) ->
  kagi_search_fetch search_task queries log
  = (format_search_results queries responses,
     log ++ map SearchRequest queries).
Proof.
  intros Hne Hlen Hall.
  destruct queries as [|query queries]; [contradiction|].
  unfold kagi_search_fetch, bind, executor_map, lift.
  now rewrite (collect_returned search_task _ 0 responses Hlen Hall).
Qed.

Lemma search_formats_responses_witness :
  kagi_search_fetch (fun _ _ => Returned Sample.two_hits) ["rocq"; "kagi"] []
  = (format_search_results ["rocq"; "kagi"]
       [Sample.two_hits; Sample.two_hits],
     [SearchRequest "rocq"; SearchRequest "kagi"])
  /\ kagi_search_fetch (fun _ _ => Returned (VDict [])) ["rocq"] []
     = (Raise (KeyError "data"), [SearchRequest "rocq"]).
Proof.
  split.
  - apply (search_formats_responses (fun _ _ => Returned Sample.two_hits)
             ["rocq"; "kagi"] [Sample.two_hits; Sample.two_hits] []);
      [discriminate | reflexivity |].
    intros [|[|[|i]]] query response Hq Hr; try discriminate;
      cbn in Hr; now injection Hr as <-.
  - apply (search_formats_responses (fun _ _ => Returned (VDict []))
             ["rocq"] [VDict []] []); [discriminate | reflexivity |].
    intros [|i] query response Hq Hr; cbn in Hr.
    + now injection Hr as <-.
    + now destruct i.
Defined.

(** X8.  The summarizer returns a value exactly when the URL is not empty,
    the configured engine is valid, the gateway returned a response with a
    [data.output] and the response signals no error; the value is that
    output as it is, and one request, with the configured engine, has been
    made. *)
Theorem summarizer_returns_iff
    summarize environ engines_order url summary_type target_language log
    output log' :
  let engine := environ_get environ "KAGI_SUMMARIZER_ENGINE" "cecil" in
  kagi_summarizer summarize environ engines_order url
    summary_type target_language log = (Ok output, log')
  <-> url <> EmptyString
      /\ In engine valid_engines
      /\ (exists response data,
            summarize url engine summary_type target_language = Ok response
            /\ subscript response "data" = Ok data
            /\ subscript data "output" = Ok output
            /\ error_of response = None)
      /\ log' = log ++ [SummarizeRequest url engine summary_type target_language].
Proof.
  cbv zeta. split.
  - intros Hrun.
    destruct (String.eqb url EmptyString) eqn:Hurl.
    { unfold kagi_summarizer in Hrun. rewrite Hurl in Hrun. discriminate. }
    apply String.eqb_neq in Hurl.
    destruct (mem (environ_get environ "KAGI_SUMMARIZER_ENGINE" "cecil")
                valid_engines) eqn:Hmem.
    2:{ unfold kagi_summarizer in Hrun.
        rewrite (eqb_empty_false _ Hurl), Hmem in Hrun. discriminate. }
    apply mem_In in Hmem.
    destruct (summarize url (environ_get environ "KAGI_SUMMARIZER_ENGINE" "cecil")
                summary_type target_language) as [response|e] eqn:Hsum.
    2:{ unfold kagi_summarizer in Hrun.
        rewrite (eqb_empty_false _ Hurl) in Hrun.
        apply mem_In in Hmem. rewrite Hmem in Hrun.
        unfold bind, call_summarize in Hrun. rewrite Hsum in Hrun.
        discriminate. }
    rewrite (summarizer_on_response _ _ _ _ _ _ _ _ Hurl Hmem Hsum) in Hrun.
    injection Hrun as Hres <-.
    repeat split; auto.
    exists response.
    destruct (subscript response "data") as [data|e] eqn:Hdata;
      cbn [rbind] in Hres; [|discriminate].
    exists data.
    destruct (subscript data "output") as [out|e]; cbn [rbind] in Hres;
      [|discriminate].
    unfold error_of.
    destruct (get response "error" VNone) as [error|e]; cbn [rbind] in Hres;
      [|discriminate].
    destruct (truthy error); [discriminate|].
    injection Hres as ->. auto.
  - intros (Hurl & Hengine & (response & data & Hsum & Hdata & Hout & Herr) & ->).
    rewrite (summarizer_on_response _ _ _ _ _ _ _ _ Hurl Hengine Hsum).
    rewrite Hdata. cbn [rbind]. rewrite Hout. cbn [rbind].
    unfold error_of in Herr.
    destruct response as [| | | | |entries]; try discriminate.
    cbn [get] in Herr |- *.
    destruct (lookup "error" entries) as [error|]; cbn [rbind].
    + destruct (truthy error); [discriminate | reflexivity].
    + reflexivity.
Qed.

Lemma summarizer_returns_iff_witness :
  kagi_summarizer (Sample.answer Sample.summary_null_error)
    Sample.no_environ valid_engines "https://example.org" Takeaway None []
  = (Ok (VStr "A summary."),
     [SummarizeRequest "https://example.org" "cecil" Takeaway None]).
Proof.
  apply (summarizer_returns_iff (Sample.answer Sample.summary_null_error)
           Sample.no_environ valid_engines "https://example.org" Takeaway
           None [] (VStr "A summary.")).
  split; [discriminate|]. split; [left; reflexivity|]. split; [|reflexivity].
  exists Sample.summary_null_error, (VDict [("output", VStr "A summary.")]).
  repeat split.
Defined.

(** X9.  The summarizer makes at most one request: none when the URL is
    empty or the configured engine is not valid, one otherwise, and that
    one carries the URL, the summary type and the language it was given
    and the configured engine, which is [cecil] when the variable is not
    set. *)
Theorem summarizer_requests
    summarize environ engines_order url summary_type target_language log :
  let engine :=
    match environ "KAGI_SUMMARIZER_ENGINE" with
    | Some configured => configured
    | None => "cecil"
    end in
  let log' :=
    snd (kagi_summarizer summarize environ engines_order url
           summary_type target_language log) in
  (log' = log /\ (url = EmptyString \/ ~ In engine valid_engines))
  \/ (log' = log ++ [SummarizeRequest url engine summary_type target_language]
      /\ url <> EmptyString /\ In engine valid_engines).
Proof.
  cbv zeta. unfold kagi_summarizer.
  fold (environ_get environ "KAGI_SUMMARIZER_ENGINE" "cecil").
  destruct (String.eqb url EmptyString) eqn:Hurl.
  { left. apply String.eqb_eq in Hurl. auto. }
  apply String.eqb_neq in Hurl.
  destruct (mem (environ_get environ "KAGI_SUMMARIZER_ENGINE" "cecil")
              valid_engines) eqn:Hmem; cbn [negb].
  - right. apply mem_In in Hmem. split; [|auto].
    unfold bind, call_summarize, lift, raise, ret.
    destruct (summarize url _ summary_type target_language) as [response|e];
      [|reflexivity].
    destruct (subscript response "data") as [data|e]; [|reflexivity].
    destruct (subscript data "output") as [out|e]; [|reflexivity].
    destruct (get response "error" VNone) as [error|e]; [|reflexivity].
    now destruct (truthy error).
  - left. split; [reflexivity|]. right. intros Hin.
    apply mem_In in Hin. congruence.
Qed.

(** X10.  An exception of the gateway call goes through the summarizer
    unchanged: it is neither caught nor wrapped. *)
Theorem summarizer_propagates_fault
    summarize environ engines_order url summary_type target_language log e :
  url <> EmptyString ->
  In (environ_get environ "KAGI_SUMMARIZER_ENGINE" "cecil") valid_engines ->
  summarize url (environ_get environ "KAGI_SUMMARIZER_ENGINE" "cecil")
    summary_type target_language = Raise e ->
  kagi_summarizer summarize environ engines_order url
    summary_type target_language log
  = (Raise e,
     log ++ [SummarizeRequest url
               (environ_get environ "KAGI_SUMMARIZER_ENGINE" "cecil")
               summary_type target_language]).
Proof.
  intros Hurl Hengine Hsum. unfold kagi_summarizer.
  rewrite (eqb_empty_false _ Hurl).
  apply mem_In in Hengine. rewrite Hengine. cbn [negb].
  unfold bind, call_summarize. now rewrite Hsum.
Qed.

Lemma summarizer_propagates_fault_witness :
  kagi_summarizer (fun _ _ _ _ => Raise (Fault "connection reset"))
    Sample.no_environ valid_engines "https://example.org" Summary None []
  = (Raise (Fault "connection reset"),
     [SummarizeRequest "https://example.org" "cecil" Summary None]).
Proof.
  apply (summarizer_propagates_fault
           (fun _ _ _ _ => Raise (Fault "connection reset"))
           Sample.no_environ valid_engines "https://example.org" Summary None
           [] (Fault "connection reset")).
  - discriminate.
  - left. reflexivity.
  - reflexivity.
Defined.

(** ** The earlier server *)

Lemma legacy_replace_absent c old new s :
  contains_char c s = false ->
  Legacy.replace (String c old) new s = s.
Proof.
  unfold Legacy.replace. induction s as [|d s IH]; [reflexivity|].
  cbn [contains_char]. intros H. apply orb_false_elim in H as [Hcd Hs].
  cbn [Legacy.replace_from String.prefix].
  destruct (ascii_dec c d) as [->|Hne].
  - now rewrite Ascii.eqb_refl in Hcd.
  - now rewrite (IH Hs).
Qed.

(** X11.  A snippet without the character [<] is shown as it is: the
    entry of a result with a title, a URL and such a snippet is the title
    in brackets, the URL in parentheses and, on the next line after four
    spaces, the snippet, followed by a line of four spaces. *)
Theorem legacy_plain_snippet item title url snippet :
  subscript item "title" = Ok title ->
  subscript item "url" = Ok url ->
  subscript item "snippet" = Ok (VStr snippet) ->
  contains_char "<" snippet = false ->
  Legacy.result_str item
  = Ok ("[" ++ py_str title ++ "](" ++ py_str url ++ ")" ++ nl
        ++ "    " ++ snippet ++ nl ++ "    ")%string.
Proof.
  intros Htitle Hurl Hsnippet Hplain. unfold Legacy.result_str.
  rewrite Htitle, Hurl, Hsnippet. cbn [rbind Legacy.method_replace].
  now rewrite !(legacy_replace_absent _ _ _ _ Hplain).
Qed.

Lemma legacy_plain_snippet_witness :
  Legacy.result_str
    (VDict [("title", VNone); ("url", VStr "u"); ("snippet", VStr "a > b")])
  = Ok ("[None](u)" ++ nl ++ "    a > b" ++ nl ++ "    ")%string.
Proof.
  exact (legacy_plain_snippet
           (VDict [("title", VNone); ("url", VStr "u"); ("snippet", VStr "a > b")])
           VNone (VStr "u") "a > b" eq_refl eq_refl eq_refl eq_refl).
Defined.

Lemma legacy_result_str_renderable item :
  organic item = true ->
  Legacy.renderable item = true ->
  Legacy.result_str item = Ok (Legacy.entry_of item).
Proof.
  unfold organic, Legacy.renderable, Legacy.entry_of, Legacy.result_str.
  destruct (subscript item "t") as [t|e]; [|discriminate].
  intros ->. cbn [negb orb].
  destruct (subscript item "title") as [title|e]; [|discriminate].
  destruct (subscript item "url") as [url|e]; [|discriminate].
  destruct (subscript item "snippet") as [[| | |s| |]|e]; try discriminate.
  reflexivity.
Qed.

Lemma legacy_result_str_raises item :
  organic item = true ->
  Legacy.renderable item = false ->
  is_ok (Legacy.result_str item) = false.
Proof.
  unfold organic, Legacy.renderable, Legacy.result_str.
  destruct (subscript item "t") as [t|e]; [|discriminate].
  intros ->. cbn [negb orb].
  destruct (subscript item "title") as [title|e]; [|reflexivity].
  destruct (subscript item "url") as [url|e]; [|reflexivity].
  destruct (subscript item "snippet") as [[| | |s| |]|e];
    try reflexivity; discriminate.
Qed.

Lemma legacy_format_items_renderable items : forall output,
  forallb Legacy.renderable items = true ->
  Legacy.format_items items output
  = Ok (output ++ map Legacy.entry_of (filter organic items)).
Proof.
  induction items as [|item items IH]; intros output H.
  - cbn. now rewrite app_nil_r.
  - cbn [forallb] in H. apply andb_prop in H as [Hitem Hrest].
    cbn [Legacy.format_items filter].
    assert (Ht : exists t, subscript item "t" = Ok t /\ organic item = eq_zero t).
    { unfold Legacy.renderable in Hitem. unfold organic.
      destruct (subscript item "t") as [t|e]; [now exists t | discriminate]. }
    destruct Ht as (t & Ht & Horg). rewrite Ht. cbn [rbind].
    rewrite <- Horg. destruct (organic item) eqn:Hitem_org.
    + rewrite (legacy_result_str_renderable _ Hitem_org Hitem). cbn [rbind map].
      now rewrite (IH _ Hrest), <- app_assoc.
    + apply (IH _ Hrest).
Qed.

Lemma legacy_format_items_raises items : forall output,
  forallb Legacy.renderable items = false ->
  is_ok (Legacy.format_items items output) = false.
Proof.
  induction items as [|item items IH]; intros output H; [discriminate|].
  cbn [forallb] in H. cbn [Legacy.format_items].
  destruct (subscript item "t") as [t|e] eqn:Ht; [|reflexivity].
  cbn [rbind].
  assert (Horg : organic item = eq_zero t) by (unfold organic; now rewrite Ht).
  rewrite <- Horg. destruct (organic item) eqn:Hitem_org.
  - destruct (Legacy.renderable item) eqn:Hitem.
    + rewrite (legacy_result_str_renderable _ Hitem_org Hitem). cbn [rbind].
      now apply IH.
    + pose proof (legacy_result_str_raises _ Hitem_org Hitem) as Hraise.
      now destruct (Legacy.result_str item).
  - assert (Hitem : Legacy.renderable item = true).
    { unfold Legacy.renderable. rewrite Ht, <- Horg. reflexivity. }
    rewrite Hitem in H. now apply IH.
Qed.

(** X12.  On results whose [data] is a list, the earlier formatter returns
    exactly when every item has a [t] and every item whose [t] is equal to
    0 has a [title], a [url] and a string [snippet]; it then returns the
    entries of the items whose [t] is equal to 0, in their order, joined by
    a line of three dashes.  The other items are skipped and need none of
    the three fields. *)
Theorem legacy_formatter_renders results items :
  subscript results "data" = Ok (VList items) ->
  match Legacy.format_search_results results with
  | Ok out =>
      forallb Legacy.renderable items = true
      /\ out = join (nl ++ "---" ++ nl)%string
                 (map Legacy.entry_of (filter organic items))
  | Raise _ => forallb Legacy.renderable items = false
  end.
Proof.
  intros Hdata. unfold Legacy.format_search_results.
  rewrite Hdata. cbn [rbind iterate].
  destruct (forallb Legacy.renderable items) eqn:Hall.
  - rewrite (legacy_format_items_renderable _ _ Hall). cbn [rbind app]. auto.
  - pose proof (legacy_format_items_raises items [] Hall) as Hraise.
    now destruct (Legacy.format_items items []).
Qed.

Lemma legacy_formatter_renders_witness :
  Legacy.format_search_results Legacy.some_results
  = Ok (join (nl ++ "---" ++ nl)%string
          [Legacy.entry_of Legacy.plain_hit; Legacy.entry_of Legacy.plain_hit])
  /\ Legacy.entry_of Legacy.plain_hit
     = ("[Rocq](https://rocq-prover.org)" ++ nl ++ "    The Rocq prover" ++ nl
        ++ "    ")%string.
Proof.
  split; [|reflexivity].
  pose proof (legacy_formatter_renders Legacy.some_results
                [Legacy.suggestion; Legacy.plain_hit; Legacy.suggestion;
                 Legacy.plain_hit] eq_refl) as H.
  destruct (Legacy.format_search_results Legacy.some_results) as [out|e].
  - destruct H as [_ ->]. reflexivity.
  - discriminate H.
Defined.

(** X13.  The earlier formatter has no fallback for a missing field: an
    organic item without a [title], after items that are rendered, makes
    the whole call raise [KeyError('title')], whatever follows it. *)
Theorem legacy_missing_title results rendered fields rest :
  subscript results "data"
  = Ok (VList (rendered ++ VDict fields :: rest)) ->
  forallb Legacy.renderable rendered = true ->
  organic (VDict fields) = true ->
  lookup "title" fields = None ->
  Legacy.format_search_results results = Raise (KeyError "title").
Proof.
  intros Hdata Hrendered Horg Htitle. unfold Legacy.format_search_results.
  rewrite Hdata. cbn [rbind iterate].
  assert (Hloop : forall output,
             Legacy.format_items (rendered ++ VDict fields :: rest) output
             = Raise (KeyError "title")).
  { clear Hdata. induction rendered as [|item rendered IH]; intros output.
    - cbn [app Legacy.format_items]. unfold organic in Horg.
      destruct (subscript (VDict fields) "t") as [t|e]; [|discriminate].
      cbn [rbind]. rewrite Horg. unfold Legacy.result_str.
      cbn [subscript]. now rewrite Htitle.
    - cbn [forallb] in Hrendered. apply andb_prop in Hrendered as [Hitem Hrest].
      cbn [app Legacy.format_items].
      assert (Ht : exists t, subscript item "t" = Ok t /\ organic item = eq_zero t).
      { unfold Legacy.renderable in Hitem. unfold organic.
        destruct (subscript item "t") as [t|e]; [now exists t | discriminate]. }
      destruct Ht as (t & Ht & Hto). rewrite Ht. cbn [rbind].
      rewrite <- Hto. destruct (organic item) eqn:Hitem_org.
      + rewrite (legacy_result_str_renderable _ Hitem_org Hitem). cbn [rbind].
        now apply IH.
      + now apply IH. }
  now rewrite Hloop.
Qed.

Lemma legacy_missing_title_witness :
  Legacy.format_search_results
    (VDict [("data", VList [Legacy.plain_hit; Legacy.suggestion;
                            Legacy.untitled_hit; Legacy.plain_hit])])
  = Raise (KeyError "title")
  /\ is_ok (format_search_results ["q"]
              [VDict [("data", VList [Legacy.plain_hit; Legacy.suggestion;
                                      Legacy.untitled_hit; Legacy.plain_hit])]])
     = true.
Proof.
  split; [|reflexivity].
  exact (legacy_missing_title
           (VDict [("data", VList [Legacy.plain_hit; Legacy.suggestion;
                                   Legacy.untitled_hit; Legacy.plain_hit])])
           [Legacy.plain_hit; Legacy.suggestion]
           [("t", VInt 0); ("url", VStr "https://example.org");
            ("snippet", VStr "text")]
           [Legacy.plain_hit] eq_refl eq_refl eq_refl eq_refl).
Defined.

Lemma legacy_query_of_falsy arguments :
  match arguments with
  | Some entries =>
      match lookup "query" entries with
      | Some query => truthy query = false
      | None => True
      end
  | None => True
  end ->
  truthy (Legacy.query_of arguments) = false.
Proof.
  destruct arguments as [entries|]; [|reflexivity].
  unfold Legacy.query_of. destruct entries as [|entry entries]; [reflexivity|].
  cbn [truthy].
  now destruct (lookup "query" (entry :: entries)).
Qed.

(** X14.  Called with a tool name other than [Search], [handle_call_tool]
    does not raise and hands nothing to the gateway: it replies with the
    one text [Error: Unknown tool: ] followed by the name, whatever the
    arguments. *)
Theorem call_unknown_tool
    search type_error_text attribute_error_text name arguments sent :
  name <> "Search" ->
  Legacy.handle_call_tool search type_error_text attribute_error_text
    name arguments sent
  = ([Legacy.TextContent ("Error: Unknown tool: " ++ name)%string], sent).
Proof.
  intros Hname. unfold Legacy.handle_call_tool, Legacy.call_tool_body.
  apply String.eqb_neq in Hname. now rewrite Hname.
Qed.

Lemma call_unknown_tool_witness :
  Legacy.handle_call_tool (Legacy.always Legacy.some_results) "T" "A"
    "search" (Some [("query", VStr "rocq")]) []
  = ([Legacy.TextContent "Error: Unknown tool: search"], []).
Proof.
  apply (call_unknown_tool (Legacy.always Legacy.some_results) "T" "A"
           "search" (Some [("query", VStr "rocq")]) []).
  discriminate.
Defined.

(** X15.  A [Search] call without arguments, with arguments that have no
    [query], or with a [query] that is false in a condition (empty, null)
    hands nothing to the gateway and replies with the one text
    [Error: Search called with no query]. *)
Theorem call_search_without_query
    search type_error_text attribute_error_text arguments sent :
  match arguments with
  | Some entries =>
      match lookup "query" entries with
      | Some query => truthy query = false
      | None => True
      end
  | None => True
  end ->
  Legacy.handle_call_tool search type_error_text attribute_error_text
    "Search" arguments sent
  = ([Legacy.TextContent "Error: Search called with no query"], sent).
Proof.
  intros H. unfold Legacy.handle_call_tool, Legacy.call_tool_body.
  cbn [String.eqb Ascii.eqb Bool.eqb].
  now rewrite (legacy_query_of_falsy _ H).
Qed.

Lemma call_search_without_query_witness :
  Legacy.handle_call_tool (Legacy.always Legacy.some_results) "T" "A"
    "Search" (Some [("limit", VInt 3); ("query", VStr EmptyString)]) []
  = ([Legacy.TextContent "Error: Search called with no query"], [])
  /\ Legacy.handle_call_tool (Legacy.always Legacy.some_results) "T" "A"
       "Search" None []
     = ([Legacy.TextContent "Error: Search called with no query"], []).
Proof.
  split.
  - apply (call_search_without_query (Legacy.always Legacy.some_results)
             "T" "A" (Some [("limit", VInt 3); ("query", VStr EmptyString)]) []).
    reflexivity.
  - apply (call_search_without_query (Legacy.always Legacy.some_results)
             "T" "A" None []).
    exact I.
Defined.

Lemma legacy_query_of_truthy entries query :
  lookup "query" entries = Some query ->
  Legacy.query_of (Some entries) = query.
Proof.
  unfold Legacy.query_of. destruct entries as [|entry entries]; [discriminate|].
  cbn [truthy]. now intros ->.
Qed.

(** X16.  A [Search] call with a query that is true in a condition hands
    that one query to the gateway.  When the gateway call raises, the
    reply is the one text [Error: ] followed by [str(e)]; when the
    response has no [data], the reply is [Error: 'data'], the quoted key
    being all that [str] gives for a [KeyError]. *)
Theorem call_search_errors
    search type_error_text attribute_error_text entries query sent :
  lookup "query" entries = Some query ->
  truthy query = true ->
  let reply :=
    Legacy.handle_call_tool search type_error_text attribute_error_text
      "Search" (Some entries) sent in
  snd reply = sent ++ [query]
  /\ (forall text,
        search query = Raise (Fault text) ->
        fst reply = [Legacy.TextContent ("Error: " ++ text)%string])
  /\ (forall fields,
        search query = Ok (VDict fields) ->
        lookup "data" fields = None ->
        fst reply = [Legacy.TextContent "Error: 'data'"]).
Proof.
  intros Hquery Htruthy. cbv zeta.
  unfold Legacy.handle_call_tool, Legacy.call_tool_body.
  cbn [String.eqb Ascii.eqb Bool.eqb].
  rewrite (legacy_query_of_truthy _ _ Hquery), Htruthy. cbn [negb].
  split; [|split].
  - now destruct (rbind (search query) Legacy.format_search_results).
  - now intros text ->.
  - intros fields -> Hdata. cbn [rbind].
    unfold Legacy.format_search_results. cbn [subscript].
    now rewrite Hdata.
Qed.

Lemma call_search_errors_witness :
  Legacy.handle_call_tool (Legacy.down "503 Service Unavailable") "T" "A"
    "Search" (Some [("query", VStr "rocq")]) []
  = ([Legacy.TextContent "Error: 503 Service Unavailable"], [VStr "rocq"])
  /\ Legacy.handle_call_tool (Legacy.always (VDict [("meta", VDict [])]))
       "T" "A" "Search" (Some [("query", VStr "rocq")]) []
     = ([Legacy.TextContent "Error: 'data'"], [VStr "rocq"]).
Proof.
  split.
  - destruct (call_search_errors (Legacy.down "503 Service Unavailable")
                "T" "A" [("query", VStr "rocq")] (VStr "rocq") []
                eq_refl eq_refl) as (Hsent & Hfault & _).
    rewrite (surjective_pairing (Legacy.handle_call_tool _ _ _ _ _ _)).
    now rewrite Hsent, (Hfault "503 Service Unavailable" eq_refl).
  - destruct (call_search_errors (Legacy.always (VDict [("meta", VDict [])]))
                "T" "A" [("query", VStr "rocq")] (VStr "rocq") []
                eq_refl eq_refl) as (Hsent & _ & Hdata).
    rewrite (surjective_pairing (Legacy.handle_call_tool _ _ _ _ _ _)).
    now rewrite Hsent, (Hdata [("meta", VDict [])] eq_refl eq_refl).
Defined.

(** X17.  A [Search] call with a query that is true in a condition, whose
    response holds a [data] list of items the earlier formatter renders,
    replies with one text, the entries of the items whose [t] is equal to
    0 joined by a line of three dashes, after handing the query to the
    gateway once. *)
Theorem call_search_lists_results
    search type_error_text attribute_error_text entries query sent
    results items :
  lookup "query" entries = Some query ->
  truthy query = true ->
  search query = Ok results ->
  subscript results "data" = Ok (VList items) ->
  forallb Legacy.renderable items = true ->
  Legacy.handle_call_tool search type_error_text attribute_error_text
    "Search" (Some entries) sent
  = ([Legacy.TextContent
        (join (nl ++ "---" ++ nl)%string
           (map Legacy.entry_of (filter organic items)))],
     sent ++ [query]).
Proof.
  intros Hquery Htruthy Hsearch Hdata Hitems.
  unfold Legacy.handle_call_tool, Legacy.call_tool_body.
  cbn [String.eqb Ascii.eqb Bool.eqb].
  rewrite (legacy_query_of_truthy _ _ Hquery), Htruthy, Hsearch.
  cbn [negb rbind].
  unfold Legacy.format_search_results. rewrite Hdata. cbn [rbind iterate].
  now rewrite (legacy_format_items_renderable _ _ Hitems).
Qed.

Lemma call_search_lists_results_witness :
  Legacy.handle_call_tool (Legacy.always Legacy.some_results) "T" "A"
    "Search" (Some [("query", VStr "rocq")]) []
  = ([Legacy.TextContent
        (join (nl ++ "---" ++ nl)%string
           [Legacy.entry_of Legacy.plain_hit; Legacy.entry_of Legacy.plain_hit])],
     [VStr "rocq"]).
Proof.
  exact (call_search_lists_results (Legacy.always Legacy.some_results)
           "T" "A" [("query", VStr "rocq")] (VStr "rocq") []
           Legacy.some_results
           [Legacy.suggestion; Legacy.plain_hit; Legacy.suggestion;
            Legacy.plain_hit]
           eq_refl eq_refl eq_refl eq_refl eq_refl).
Defined.
